(** * gmapswrapper: the cache-augmented geocoding wrapper

    A shallow embedding of [src/gmapswrapper.py] (class [GMapsWrapper]) and
    the properties of its batch lookup routine [geocode], of the cache file
    operations [_load_cache], [_write_cache], [clean_cache] and of
    [remove_item_from_cache].

    The Python methods act on three things outside of their arguments: the
    pickle file at [self.cachefile], the Google Maps client [self.gmaps]
    and the module logger (plus the wall clock read by [datetime.now()]).
    They are gathered in a [world] record that every method threads
    through; a method either returns a value or raises. *)

From Stdlib Require Import ZArith Lia ZifyNat.
From stdpp Require Import base strings list gmap.

Local Open Scope string_scope.
Local Open Scope list_scope.

(* ===================================================================== *)
(** ** Python values handled by the wrapper *)
(* ===================================================================== *)

(** One match record of a geocoding answer.  The wrapper never looks inside
    it; it is kept as its serialised form. *)
Abbreviation geocode_match := string (only parsing).

(** What [googlemaps.Client.geocode] returns: a list of match records. *)
Abbreviation geocode_result := (list geocode_match) (only parsing).

(** The value bound to [geocode_results] in [geocode]: a list of matches,
    or Python's [None]. *)
Abbreviation pyval := (option geocode_result) (only parsing).

(** [datetime.now()] values. *)
Abbreviation timestamp := Z (only parsing).

(** Exceptions that occur in the module. *)
Inductive exn : Type :=
| ValueError          (* raised by [geocode] on a wrong argument type *)
| KeyError            (* dict subscript on a missing key *)
| TypeError           (* [in] on a non-container *)
| UnpicklingError     (* [pickle.load] on a damaged file *)
| OSError             (* [open(..., 'wb')] refused *)
| HTTPError           (* googlemaps.exceptions.HTTPError *)
| TransportError      (* googlemaps.exceptions.TransportError *)
| Timeout             (* googlemaps.exceptions.Timeout *)
| ApiError            (* googlemaps.exceptions.ApiError *)
| OtherException.     (* anything else derived from Exception *)

(** Outcome of one call of the provider. *)
Inductive outcome : Type :=
| Returns (r : geocode_result)
| Raises (e : exn).

(** The argument of [geocode], by its Python type.  Sets are given with the
    order in which iterating them yields their elements. *)
Inductive py_arg : Type :=
| PyList (l : list string)
| PyTuple (l : list string)
| PySet (l : list string)
| PyFrozenSet (l : list string)
| PyDict (keys : list string)
| PyStr (s : string)
| PyNone.

(** [type(addresses) in (list, tuple, set)], with the elements in iteration
    order when it holds. *)
Definition accepted (addresses : py_arg) : option (list string) :=
  match addresses with
  | PyList l | PyTuple l | PySet l => Some l
  | _ => None
  end.

(* ===================================================================== *)
(** ** The cache object *)
(* ===================================================================== *)

(** The dict built by [_load_cache]: keys ['_version'], ['_requests'] and
    ['geocoding']. *)
Record cache_dict : Type := CacheDict {
  c_version : Z;
  c_requests : gmap string (list timestamp);
  c_geocoding : gmap string geocode_result
}.

Definition set_requests (c : cache_dict) (rq : gmap string (list timestamp)) : cache_dict :=
  {| c_version := c_version c; c_requests := rq; c_geocoding := c_geocoding c |}.

Definition set_geocoding (c : cache_dict) (g : gmap string geocode_result) : cache_dict :=
  {| c_version := c_version c; c_requests := c_requests c; c_geocoding := g |}.

(** The literal of [_load_cache]'s [else] branch. *)
Definition new_cache : cache_dict :=
  {| c_version := 1;
     c_requests := {[ "geocoding" := [] ]};
     c_geocoding := ∅ |}.

(** The request log [cache['_requests']['geocoding']], empty when the key
    is missing. *)
Definition request_log (c : cache_dict) : list timestamp :=
  default [] (c_requests c !! "geocoding").

(* ===================================================================== *)
(** ** The world outside of the wrapper *)
(* ===================================================================== *)

(** What is found at [self.cachefile]. *)
Inductive file_state : Type :=
| Absent
| Pickled (c : cache_dict)
| Corrupt.

(** Records handed to the module logger. *)
Inductive log_record : Type :=
| InfoCreatingCache
| InfoLoadingCache
| InfoWritingCache
| InfoRemoved (item_id section : string)
| InfoFound (n : nat) (addr : string)
| InfoRequesting (addr : string)
| InfoWillSave (n : nat)
| ErrorHTTP
| ErrorTransport
| ErrorTimeout
| ErrorUnknown.

Record world : Type := World {
  file : file_state;                              (* the cache file *)
  writable : bool;                                (* can the file be written and deleted *)
  nwrites : nat;                                  (* completed [pickle.dump]s *)
  provider : list string -> string -> outcome;    (* the geocoding service, by call history *)
  calls : list string;                            (* addresses sent to it, oldest first *)
  now : nat -> timestamp;                         (* the clock, by number of readings *)
  ticks : nat;                                    (* readings of the clock so far *)
  log : list log_record                           (* records logged, oldest first *)
}.

Definition set_file (w : world) (f : file_state) (n : nat) : world :=
  {| file := f; writable := writable w; nwrites := n; provider := provider w;
     calls := calls w; now := now w; ticks := ticks w; log := log w |}.

Definition set_calls (w : world) (cs : list string) : world :=
  {| file := file w; writable := writable w; nwrites := nwrites w;
     provider := provider w; calls := cs; now := now w; ticks := ticks w;
     log := log w |}.

Definition set_ticks (w : world) (n : nat) : world :=
  {| file := file w; writable := writable w; nwrites := nwrites w;
     provider := provider w; calls := calls w; now := now w; ticks := n;
     log := log w |}.

Definition set_log (w : world) (l : list log_record) : world :=
  {| file := file w; writable := writable w; nwrites := nwrites w;
     provider := provider w; calls := calls w; now := now w; ticks := ticks w;
     log := l |}.

(* ===================================================================== *)
(** ** Methods as state transformers that may raise *)
(* ===================================================================== *)

Inductive res (A : Type) : Type :=
| Ok (a : A)
| Raise (e : exn).
Arguments Ok {A} a.
Arguments Raise {A} e.

Definition M (A : Type) : Type := world -> res A * world.

Definition ret {A} (a : A) : M A := fun w => (Ok a, w).

Definition raise {A} (e : exn) : M A := fun w => (Raise e, w).

Definition bind {A B} (m : M A) (k : A -> M B) : M B :=
  fun w =>
    match m w with
    | (Ok a, w1) => k a w1
    | (Raise e, w1) => (Raise e, w1)
    end.

Declare Scope py_scope.
Delimit Scope py_scope with py.
Notation "'let*' x ':=' m 'in' k" := (bind m (fun x => k))
  (at level 10, x pattern, m at level 100, k at level 200) : py_scope.
Notation "m ';;' k" := (bind m (fun _ => k))
  (at level 100, k at level 200, right associativity) : py_scope.
Local Open Scope py_scope.

(** [logger.info(...)] and [logger.error(...)]. *)
Definition logger (r : log_record) : M unit :=
  fun w => (Ok tt, set_log w (log w ++ [r])).

(** [datetime.now()] *)
Definition datetime_now : M timestamp :=
  fun w => (Ok (now w (ticks w)), set_ticks w (S (ticks w))).

(** [self.gmaps.geocode(addr)]: the call is recorded and its outcome,
    answer or exception, is handed to the caller as a value. *)
Definition gmaps_geocode (addr : string) : M outcome :=
  fun w => (Ok (provider w (calls w) addr), set_calls w (calls w ++ [addr])).

(** The [except Exception as exc] ladder: which error record is logged. *)
Definition failure_record (e : exn) : log_record :=
  match e with
  | HTTPError => ErrorHTTP
  | TransportError => ErrorTransport
  | Timeout => ErrorTimeout
  | _ => ErrorUnknown
  end.

(* ===================================================================== *)
(** ** The cache file *)
(* ===================================================================== *)

Definition _load_cache : M cache_dict :=
  fun w =>
    match file w with
    | Pickled c => (logger InfoLoadingCache ;; ret c) w
    | Corrupt => (logger InfoLoadingCache ;; raise UnpicklingError) w
    | Absent => (logger InfoCreatingCache ;; ret new_cache) w
    end.

(** [_write_cache]: when the file cannot be opened for writing, [open]
    raises and the file is as it was.  A write that fails after [open]
    has emptied the file is outside of this model: what is proved about
    calls that write is proved for [writable w = true], what is proved
    for [writable w = false] is about the refused [open]. *)
Definition _write_cache (c : cache_dict) : M unit :=
  fun w =>
    if writable w
    then (logger InfoWritingCache ;;
          fun w1 => (Ok tt, set_file w1 (Pickled c) (S (nwrites w1)))) w
    else (Raise OSError, w).

(** [clean_cache]: [os.unlink] runs only when there is a file, and
    raises when the file cannot be deleted. *)
Definition clean_cache : M unit :=
  fun w =>
    match file w with
    | Absent => (Ok tt, w)
    | _ =>
        if writable w
        then (Ok tt, set_file w Absent (nwrites w))
        else (Raise OSError, w)
    end.

(** [remove_item_from_cache(item_id, section)].  [cache[section]] is the
    result dict for ['geocoding'], the request dict for ['_requests'], the
    integer 1 for ['_version'] (on which [in] raises) and a missing key
    otherwise. *)
Definition remove_item_from_cache (item_id section : string) : M unit :=
  let* cache := _load_cache in
  let* cache :=
    if decide (section = "geocoding") then
      if decide (is_Some (c_geocoding cache !! item_id)) then
        let cache := set_geocoding cache (delete item_id (c_geocoding cache)) in
        logger (InfoRemoved item_id section) ;; ret cache
      else ret cache
    else if decide (section = "_requests") then
      if decide (is_Some (c_requests cache !! item_id)) then
        let cache := set_requests cache (delete item_id (c_requests cache)) in
        logger (InfoRemoved item_id section) ;; ret cache
      else ret cache
    else if decide (section = "_version") then raise TypeError
    else raise KeyError in
  _write_cache cache.

(* ===================================================================== *)
(** ** [geocode] *)
(* ===================================================================== *)

Definition AUTSAVE_CACHE_EVERY_NTH_REQUEST : Z := 10.

(** The local variables of [geocode] that live across iterations.  The
    source also binds [geocoding_cache = cache['geocoding']]: it is the
    same dict object as the one inside [cache], so that an assignment to
    [geocoding_cache[addr]] is an update of [cache] and the later
    [cache['geocoding'] = geocoding_cache] changes nothing.  Both names
    are therefore read from the one field [cache_obj]. *)
Record loop_state : Type := LoopState {
  cache_obj : cache_dict;
  geocoded_addresses : gmap string pyval;
  fetched_res_since_last_cachewrite : bool
}.

(** Lines 76-98, the [else] branch of the cache test: ask the API.  The
    [try] block first evaluates [cache['_requests']['geocoding'].append],
    then reads the clock, appends, and calls the provider; whatever is
    raised inside it is logged and leaves [geocode_results = None], with
    the appended timestamp staying in place.  The closing [match] is
    [if geocode_results:], for which [None] and the empty list are
    falsy. *)
Definition request_api (addr : string) (cache : cache_dict) : M (cache_dict * pyval) :=
  logger (InfoRequesting addr) ;;
  let* (cache, geocode_results) :=
    match c_requests cache !! "geocoding" with
    | None => logger (failure_record KeyError) ;; ret (cache, None)
    | Some stamps =>
        let* t := datetime_now in
        let cache :=
          set_requests cache (<["geocoding" := stamps ++ [t]]> (c_requests cache)) in
        let* answer := gmaps_geocode addr in
        match answer with
        | Returns r => ret (cache, Some r)
        | Raises e => logger (failure_record e) ;; ret (cache, None)
        end
    end in
  match geocode_results with
  | Some (m :: ms) =>
      logger (InfoWillSave (length (m :: ms))) ;;
      ret (set_geocoding cache (<[addr := m :: ms]> (c_geocoding cache)),
           geocode_results)
  | _ => ret (cache, geocode_results)
  end.

(** Lines 72-98: the cache test.  Gives the cache, [geocode_results] and
    the new value of [fetched_res_since_last_cachewrite]. *)
Definition resolve_address (addr : string) (st : loop_state)
  : M (cache_dict * pyval * bool) :=
  match c_geocoding (cache_obj st) !! addr with
  | Some r =>
      logger (InfoFound (length r) addr) ;;
      ret (cache_obj st, Some r, fetched_res_since_last_cachewrite st)
  | None =>
      let* (cache, geocode_results) := request_api addr (cache_obj st) in
      ret (cache, geocode_results, true)
  end.

(** The test of line 104, on Python integers. *)
Definition autosave_due (n i : nat) : bool :=
  ((Z.of_nat i + 1) mod AUTSAVE_CACHE_EVERY_NTH_REQUEST =? 0)%Z
  || (Z.of_nat i =? Z.of_nat n - 1)%Z.

(** One iteration of the [for] loop, for index [i] of [n] addresses. *)
Definition geocode_step (n i : nat) (addr : string) (st : loop_state)
  : M loop_state :=
  let* (cache, geocode_results, fetched) := resolve_address addr st in
  let out := <[addr := geocode_results]> (geocoded_addresses st) in
  if autosave_due n i && fetched
  then _write_cache cache ;; ret (LoopState cache out false)
  else ret (LoopState cache out fetched).

(** [for i, addr in enumerate(addresses)], from index [i] on. *)
Fixpoint geocode_loop (n i : nat) (addresses : list string) (st : loop_state)
  : M loop_state :=
  match addresses with
  | [] => ret st
  | addr :: rest =>
      let* st := geocode_step n i addr st in
      geocode_loop n (S i) rest st
  end.

Definition geocode (addresses : py_arg) : M (gmap string pyval) :=
  match accepted addresses with
  | None => raise ValueError
  | Some l =>
      let* cache := _load_cache in
      let* st := geocode_loop (length l) 0 l (LoopState cache ∅ false) in
      ret (geocoded_addresses st)
  end.

(** A run of several [geocode] calls one after the other, the caller
    going on after a call that raised. *)
Fixpoint geocode_batches (batches : list py_arg) (w : world) : world :=
  match batches with
  | [] => w
  | b :: rest => geocode_batches rest (geocode b w).2
  end.

(* ===================================================================== *)
(** ** Vocabulary of the statements *)
(* ===================================================================== *)

(** What [_load_cache] hands out when the file can be read. *)
Definition stored_cache (w : world) : cache_dict :=
  match file w with
  | Pickled c => c
  | _ => new_cache
  end.

(** What no method changes, and what only grows. *)
Record evolves (w w' : world) : Prop := Evolves {
  ev_provider : provider w' = provider w;
  ev_now : now w' = now w;
  ev_writable : writable w' = writable w;
  ev_calls : calls w `prefix_of` calls w';
  ev_log : log w `prefix_of` log w';
  ev_ticks : ticks w <= ticks w';
  ev_nwrites : nwrites w <= nwrites w'
}.

(** Log records that mark the handling of one address: a cache hit, or a
    request to the API. *)
Definition found (r : log_record) : option string :=
  match r with InfoFound _ addr => Some addr | _ => None end.

Definition handled (r : log_record) : option string :=
  match r with
  | InfoFound _ addr | InfoRequesting addr => Some addr
  | _ => None
  end.

(** Addresses found in the cache, in the order of the log. *)
Definition cache_hits (l : list log_record) : list string := omap found l.

(** Addresses handled by the loop of [geocode], in the order of the log. *)
Definition processed (l : list log_record) : list string := omap handled l.

(** How often an address occurs in a list. *)
Definition occurrences (a : string) (l : list string) : nat :=
  length (filter (fun b => b = a) l).

(** The quotient rounded up. *)
Definition ceil_div (k n : nat) : nat := (k + n - 1) / n.

(** [r] is a non-empty answer that the provider gave to a recorded call
    for address [a]. *)
Definition answered (w : world) (a : string) (r : list geocode_match) : Prop :=
  r ≠ []
  /\ exists history,
       (history ++ [a]) `prefix_of` calls w
       /\ provider w history a = Returns r.

(** Every entry of the result dict of [c] is such an answer. *)
Definition justified (w : world) (c : cache_dict) : Prop :=
  forall a r, c_geocoding c !! a = Some r -> answered w a r.

(** The provider never gives a non-empty answer for [a]: it raises or
    returns the empty list, whatever was asked before. *)
Definition never_succeeds (w : world) (a : string) : Prop :=
  forall history,
    match provider w history a with
    | Returns (_ :: _) => False
    | _ => True
    end.

(** Occurrences of an address in the batches that [geocode] accepts. *)
Fixpoint batch_occurrences (a : string) (batches : list py_arg) : nat :=
  match batches with
  | [] => 0
  | b :: rest =>
      match accepted b with
      | Some l => occurrences a l
      | None => 0
      end + batch_occurrences a rest
  end.

(** [c'] has everything [c] has: the same version, every entry of the
    result dict with the same value, and the request log with possibly
    more timestamps at its end. *)
Definition extends_cache (c c' : cache_dict) : Prop :=
  c_version c' = c_version c
  /\ c_geocoding c ⊆ c_geocoding c'
  /\ request_log c `prefix_of` request_log c'.

(** The in-memory cache has nothing that the file has not, unless the
    flag [fetched_res_since_last_cachewrite] is up. *)
Definition in_sync (st : loop_state) (w : world) : Prop :=
  fetched_res_since_last_cachewrite st = false ->
  cache_obj st = stored_cache w.

(* ===================================================================== *)
(** ** Sample worlds *)
(* ===================================================================== *)

(** A world with no cache file, a writable directory, a clock that counts
    its readings, and a provider to be chosen. *)
Definition fresh_world (p : list string -> string -> outcome) : world :=
  {| file := Absent; writable := true; nwrites := 0; provider := p;
     calls := []; now := fun k => Z.of_nat k; ticks := 0; log := [] |}.

(** A provider that finds one match for every address but ["nowhere"],
    finds nothing for that one, and times out on ["offline"]. *)
Definition sample_provider (history : list string) (addr : string) : outcome :=
  if decide (addr = "offline") then Raises Timeout
  else if decide (addr = "nowhere") then Returns []
  else Returns [addr].

(** Eleven distinct addresses: one more than the autosave interval. *)
Definition eleven : list string :=
  ["a0"; "a1"; "a2"; "a3"; "a4"; "a5"; "a6"; "a7"; "a8"; "a9"; "a10"].

(** A cache with two entries and one logged request, the world whose file
    holds it, and the state of [geocode] right after loading it. *)
Definition baker_cache : cache_dict :=
  {| c_version := 1;
     c_requests := {[ "geocoding" := [7%Z] ]};
     c_geocoding := {[ "221B Baker Street, London" := ["NW1 6XE"];
                       "Reichpietschufer 50, Berlin" := ["10785"] ]} |}.

Definition baker_world : world :=
  {| file := Pickled baker_cache; writable := true; nwrites := 0;
     provider := sample_provider; calls := []; now := fun k => Z.of_nat k;
     ticks := 0; log := [] |}.

Definition baker_state : loop_state :=
  LoopState baker_cache ∅ false.

(** The same world with a cache file that cannot be opened for writing,
    and with one that cannot be unpickled. *)
Definition readonly_world : world :=
  {| file := Pickled baker_cache; writable := false; nwrites := 0;
     provider := sample_provider; calls := []; now := fun k => Z.of_nat k;
     ticks := 0; log := [] |}.

(** The world of a cache file whose request dict is empty. *)
Definition nolog_world : world :=
  {| file := Pickled (set_requests baker_cache ∅); writable := true;
     nwrites := 0; provider := sample_provider; calls := [];
     now := fun k => Z.of_nat k; ticks := 0; log := [] |}.

Definition corrupt_world : world :=
  {| file := Corrupt; writable := true; nwrites := 0;
     provider := sample_provider; calls := []; now := fun k => Z.of_nat k;
     ticks := 0; log := [] |}.

(* ===================================================================== *)
(** ** Tactics and first facts *)
(* ===================================================================== *)

(** Let [lia] see through quotients and remainders. *)
Ltac Zify.zify_post_hook ::= Z.to_euclidean_division_equations.

Ltac unfold_py :=
  unfold geocode_step, resolve_address, request_api, remove_item_from_cache,
    clean_cache, _write_cache, _load_cache, gmaps_geocode, datetime_now,
    logger, bind, ret, raise in *.

(** Run a method symbolically, splitting on every test it makes. *)
Ltac py_cases :=
  unfold_py; simpl in *;
  repeat (case_match; simplify_eq/=); simplify_eq/=.

Lemma load_cache_readable (w : world) :
  file w ≠ Corrupt ->
  exists w1, _load_cache w = (Ok (stored_cache w), w1)
    /\ file w1 = file w /\ writable w1 = writable w
    /\ nwrites w1 = nwrites w /\ provider w1 = provider w
    /\ calls w1 = calls w /\ now w1 = now w /\ ticks w1 = ticks w.
Proof.
  intros Hf. unfold stored_cache.
  destruct (file w) eqn:E; [| |done]; eexists; py_cases; rewrite ?E; done.
Qed.

(* ===================================================================== *)
(** ** Wrong argument types *)
(* ===================================================================== *)

(** C8.  When the argument of [geocode] is not a list, a tuple or a set,
    the call raises [ValueError] and leaves the world exactly as it was:
    the cache file was not read (nothing was logged), nothing was written,
    the provider was not called and the clock was not read. *)
Theorem geocode_rejects_other_types (addresses : py_arg) (w : world) :
  accepted addresses = None ->
  geocode addresses w = (Raise ValueError, w).
Proof.
  intros H. unfold geocode. rewrite H. reflexivity.
Qed.

Lemma geocode_rejects_other_types_witness :
  accepted (PyStr "Unter den Linden 1, Berlin") = None
  /\ geocode (PyStr "Unter den Linden 1, Berlin") (fresh_world sample_provider)
     = (Raise ValueError, fresh_world sample_provider).
Proof.
  split; [reflexivity|].
  apply (geocode_rejects_other_types
           (PyStr "Unter den Linden 1, Berlin") (fresh_world sample_provider)).
  reflexivity.
Defined.

(* ===================================================================== *)
(** ** Removing an item *)
(* ===================================================================== *)

(** C9.  With a readable and writable cache file,
    [remove_item_from_cache(item_id)] (section ['geocoding']) returns
    normally after exactly one write; the file then holds the cache that
    was loaded with [item_id] deleted from its result dict, the version
    and the request dict being those that were loaded; when [item_id] had
    no entry, the file holds the loaded cache itself.  The provider and
    the clock are not touched. *)
Theorem remove_item_from_cache_geocoding (item_id : string) (w : world) :
  file w ≠ Corrupt ->
  writable w = true ->
  exists w',
    remove_item_from_cache item_id "geocoding" w = (Ok tt, w')
    /\ nwrites w' = S (nwrites w)
    /\ file w' = Pickled (set_geocoding (stored_cache w)
                            (delete item_id (c_geocoding (stored_cache w))))
    /\ c_version (stored_cache w') = c_version (stored_cache w)
    /\ c_requests (stored_cache w') = c_requests (stored_cache w)
    /\ (forall k, k ≠ item_id ->
          c_geocoding (stored_cache w') !! k = c_geocoding (stored_cache w) !! k)
    /\ c_geocoding (stored_cache w') !! item_id = None
    /\ (c_geocoding (stored_cache w) !! item_id = None ->
          file w' = Pickled (stored_cache w))
    /\ calls w' = calls w /\ ticks w' = ticks w /\ writable w' = true.
Proof.
  intros Hf Hw.
  assert (exists w',
    remove_item_from_cache item_id "geocoding" w = (Ok tt, w')
    /\ nwrites w' = S (nwrites w)
    /\ file w' = Pickled (set_geocoding (stored_cache w)
                            (delete item_id (c_geocoding (stored_cache w))))
    /\ calls w' = calls w /\ ticks w' = ticks w /\ writable w' = true)
    as (w' & Hrun & Hn & Hfile & Hc & Ht & Hw').
  { unfold stored_cache.
    destruct (file w) as [|c|] eqn:E; [| |done]; py_cases;
      try (eexists; repeat split; simpl; done).
    match goal with H : ¬ is_Some _ |- _ =>
      pose proof (proj2 (eq_None_not_Some _) H) as Hnone end.
    eexists; repeat split; simpl; try done.
    rewrite delete_id by done. by destruct c. }
  assert (Hs : stored_cache w' = set_geocoding (stored_cache w)
                 (delete item_id (c_geocoding (stored_cache w))))
    by (unfold stored_cache at 1; by rewrite Hfile).
  exists w'. rewrite Hs, Hfile. simpl.
  repeat split; try done.
  - intros k Hk. by rewrite lookup_delete_ne.
  - by rewrite lookup_delete_eq.
  - intros Hnone. rewrite delete_id by done. by destruct (stored_cache w).
Qed.

Lemma remove_item_from_cache_geocoding_witness :
  exists w',
    remove_item_from_cache "221B Baker Street, London" "geocoding" baker_world
      = (Ok tt, w')
    /\ nwrites w' = 1
    /\ c_geocoding (stored_cache w') !! "221B Baker Street, London" = None
    /\ c_geocoding (stored_cache w') !! "Reichpietschufer 50, Berlin"
       = Some ["10785"].
Proof.
  destruct (remove_item_from_cache_geocoding
              "221B Baker Street, London" baker_world)
    as (w' & Hrun & Hn & _ & _ & _ & Hother & Hgone & _);
    [discriminate | reflexivity |].
  exists w'. repeat split; [exact Hrun | exact Hn | exact Hgone |].
  rewrite Hother by discriminate. reflexivity.
Defined.

(* ===================================================================== *)
(** ** How a call changes the world *)
(* ===================================================================== *)

Lemma evolves_refl (w : world) : evolves w w.
Proof. by split. Qed.

Lemma evolves_trans (w1 w2 w3 : world) :
  evolves w1 w2 -> evolves w2 w3 -> evolves w1 w3.
Proof.
  intros [] []. split; try congruence; try lia; by etrans.
Qed.

(** Everything [resolve_address] does, case by case. *)
Lemma resolve_address_spec (addr : string) (st : loop_state) (w : world) :
  exists c v f w1,
    resolve_address addr st w = (Ok (c, v, f), w1)
    /\ file w1 = file w /\ nwrites w1 = nwrites w
    /\ writable w1 = writable w /\ provider w1 = provider w
    /\ now w1 = now w /\ c_version c = c_version (cache_obj st)
    /\ match c_geocoding (cache_obj st) !! addr with
       | Some r =>
           c = cache_obj st /\ v = Some r
           /\ f = fetched_res_since_last_cachewrite st
           /\ calls w1 = calls w /\ ticks w1 = ticks w
           /\ log w1 = log w ++ [InfoFound (length r) addr]
       | None =>
           f = true
           /\ (exists extra, log w1 = log w ++ InfoRequesting addr :: extra
                 /\ omap handled extra = [])
           /\ match c_requests (cache_obj st) !! "geocoding" with
              | None =>
                  c = cache_obj st /\ v = None
                  /\ calls w1 = calls w /\ ticks w1 = ticks w
              | Some stamps =>
                  calls w1 = calls w ++ [addr] /\ ticks w1 = S (ticks w)
                  /\ c_requests c
                     = <["geocoding" := stamps ++ [now w (ticks w)]]>
                         (c_requests (cache_obj st))
                  /\ match provider w (calls w) addr with
                     | Returns (m :: ms) =>
                         v = Some (m :: ms)
                         /\ c_geocoding c
                            = <[addr := m :: ms]> (c_geocoding (cache_obj st))
                     | Returns [] =>
                         v = Some [] /\ c_geocoding c = c_geocoding (cache_obj st)
                     | Raises e =>
                         v = None /\ c_geocoding c = c_geocoding (cache_obj st)
                     end
              end
       end.
Proof.
  py_cases; eexists _, _, _, _; (split; [reflexivity|]); simpl;
    repeat split; try done;
    try (eexists; split; [by rewrite <- ?app_assoc|]; by destruct_and?);
    try (eexists; split; [by rewrite <- ?app_assoc|]; simpl; by case_match).
  eexists; split; [by rewrite <- app_assoc|]. by destruct e.
Qed.

(** One iteration is [resolve_address], the entry in the result dict, and
    the autosave. *)
Lemma geocode_step_unfold (n i : nat) (addr : string) (st : loop_state)
    (w : world) (c : cache_dict) (v : pyval) (f : bool) (w1 : world) :
  resolve_address addr st w = (Ok (c, v, f), w1) ->
  geocode_step n i addr st w =
    let out := <[addr := v]> (geocoded_addresses st) in
    if autosave_due n i && f
    then if writable w1
         then (Ok (LoopState c out false),
               set_file (set_log w1 (log w1 ++ [InfoWritingCache]))
                 (Pickled c) (S (nwrites w1)))
         else (Raise OSError, w1)
    else (Ok (LoopState c out f), w1).
Proof.
  intros H. unfold geocode_step, bind at 1. rewrite H. simpl.
  destruct (autosave_due n i && f); [|reflexivity].
  unfold _write_cache, bind, logger, ret. destruct (writable w1); reflexivity.
Qed.

(** Open one iteration into its [resolve_address] part, described by
    [resolve_address_spec], and its autosave part. *)
Ltac step_intro n i addr st w :=
  let c := fresh "c" in let v := fresh "v" in let f := fresh "f" in
  let w1 := fresh "w1" in let Hres := fresh "Hres" in
  let Hcase := fresh "Hcase" in
  destruct (resolve_address_spec addr st w)
    as (c & v & f & w1 & Hres & ? & ? & ? & ? & ? & ? & Hcase);
  rewrite (geocode_step_unfold n i addr st w c v f w1 Hres) in *;
  clear Hres; cbv zeta in *.

Lemma resolve_address_evolves addr st w c v f w1 :
  resolve_address addr st w = (Ok (c, v, f), w1) -> evolves w w1.
Proof.
  intros H.
  destruct (resolve_address_spec addr st w)
    as (c' & v' & f' & w1' & Hres & ? & ? & ? & ? & ? & ? & Hcase).
  rewrite H in Hres. simplify_eq.
  destruct (c_geocoding (cache_obj st) !! addr).
  - destruct Hcase as (_ & _ & _ & Hc & Ht & Hl).
    split; try done; try lia; [by rewrite Hc | rewrite Hl; by apply prefix_app_r].
  - destruct Hcase as (_ & (extra & Hl & _) & Hrq).
    assert (log w `prefix_of` log w1') by (rewrite Hl; by apply prefix_app_r).
    destruct (c_requests (cache_obj st) !! "geocoding").
    + destruct Hrq as (Hc & Ht & _).
      split; try done; try lia. rewrite Hc; by apply prefix_app_r.
    + destruct Hrq as (_ & _ & Hc & Ht).
      split; try done; try lia. by rewrite Hc.
Qed.

Lemma geocode_step_evolves n i addr st w :
  evolves w (geocode_step n i addr st w).2.
Proof.
  destruct (resolve_address_spec addr st w)
    as (c & v & f & w1 & Hres & _).
  rewrite (geocode_step_unfold n i addr st w c v f w1 Hres). cbv zeta.
  apply resolve_address_evolves in Hres.
  destruct (autosave_due n i && f); [|done].
  destruct (writable w1); [|done].
  eapply evolves_trans; [exact Hres|].
  split; simpl; try done; try lia. by apply prefix_app_r.
Qed.

Lemma geocode_loop_cons n i addr rest st w :
  geocode_loop n i (addr :: rest) st w =
    match geocode_step n i addr st w with
    | (Ok st1, w1) => geocode_loop n (S i) rest st1 w1
    | (Raise e, w1) => (Raise e, w1)
    end.
Proof. reflexivity. Qed.

Lemma geocode_loop_evolves n l : forall i st w,
  evolves w (geocode_loop n i l st w).2.
Proof.
  induction l as [|addr rest IH]; intros i st w; [apply evolves_refl|].
  rewrite geocode_loop_cons.
  pose proof (geocode_step_evolves n i addr st w) as Hstep.
  destruct (geocode_step n i addr st w) as [[st1|e] w1]; simpl in *; [|done].
  eapply evolves_trans; [exact Hstep | apply IH].
Qed.

Lemma load_cache_evolves w : evolves w (_load_cache w).2.
Proof.
  py_cases; split; simpl; try done; by apply prefix_app_r.
Qed.

Lemma geocode_evolves addresses w : evolves w (geocode addresses w).2.
Proof.
  unfold geocode. destruct (accepted addresses) as [l|]; [|apply evolves_refl].
  unfold bind at 1. pose proof (load_cache_evolves w) as Hload.
  destruct (_load_cache w) as [[c|e] w1]; simpl in *; [|done].
  unfold bind, ret.
  pose proof (geocode_loop_evolves (length l) l 0 (LoopState c ∅ false) w1) as H.
  destruct (geocode_loop _ _ _ _ _) as [[st|e] w2]; simpl in *;
    by eapply evolves_trans.
Qed.

(** With a writable cache file an iteration cannot raise: exceptions of
    the provider are caught inside [resolve_address]. *)
Lemma geocode_step_total n i addr st w :
  writable w = true ->
  exists st1 w1, geocode_step n i addr st w = (Ok st1, w1).
Proof.
  intros Hw. step_intro n i addr st w.
  destruct (autosave_due n i && f); [|by eexists _, _].
  replace (writable w1) with true by congruence. by eexists _, _.
Qed.

Lemma geocode_loop_total n l : forall i st w,
  writable w = true ->
  exists st2 w2, geocode_loop n i l st w = (Ok st2, w2).
Proof.
  induction l as [|addr rest IH]; intros i st w Hw; [by eexists _, _|].
  rewrite geocode_loop_cons.
  destruct (geocode_step_total n i addr st w Hw) as (st1 & w1 & Hstep).
  pose proof (geocode_step_evolves n i addr st w) as Hev.
  rewrite Hstep in *. simpl in Hev. apply IH.
  rewrite (ev_writable _ _ Hev). exact Hw.
Qed.

(** Induction along a run of the loop that ends normally. *)
Lemma geocode_loop_ok_ind (n : nat)
    (R : nat -> list string -> loop_state -> world -> loop_state -> world -> Prop) :
  (forall i st w, R i [] st w st w) ->
  (forall i addr rest st w st1 w1 st2 w2,
      geocode_step n i addr st w = (Ok st1, w1) ->
      geocode_loop n (S i) rest st1 w1 = (Ok st2, w2) ->
      R (S i) rest st1 w1 st2 w2 ->
      R i (addr :: rest) st w st2 w2) ->
  forall l i st w st2 w2,
    geocode_loop n i l st w = (Ok st2, w2) -> R i l st w st2 w2.
Proof.
  intros Hnil Hcons. induction l as [|addr rest IH]; intros i st w st2 w2 Hrun.
  - simpl in Hrun. unfold ret in Hrun. simplify_eq. apply Hnil.
  - rewrite geocode_loop_cons in Hrun.
    destruct (geocode_step n i addr st w) as [[st1|e] w1] eqn:Hstep; [|done].
    eapply Hcons; eauto.
Qed.

(** An iteration that ends normally, in terms of its [resolve_address]
    part: the result dict gets the entry, and the autosave, when it is due
    with something fetched, writes the cache and resets the flag. *)
Lemma geocode_step_ok n i addr st w st1 w1 :
  geocode_step n i addr st w = (Ok st1, w1) ->
  exists v f wr,
    resolve_address addr st w = (Ok (cache_obj st1, v, f), wr)
    /\ geocoded_addresses st1 = <[addr := v]> (geocoded_addresses st)
    /\ calls w1 = calls wr /\ ticks w1 = ticks wr
    /\ provider w1 = provider wr /\ now w1 = now wr
    /\ writable w1 = writable wr
    /\ processed (log w1) = processed (log wr)
    /\ cache_hits (log w1) = cache_hits (log wr)
    /\ if autosave_due n i && f
       then fetched_res_since_last_cachewrite st1 = false
            /\ nwrites w1 = S (nwrites wr)
            /\ file w1 = Pickled (cache_obj st1)
       else fetched_res_since_last_cachewrite st1 = f /\ w1 = wr.
Proof.
  destruct (resolve_address_spec addr st w)
    as (c & v & f & wr & Hres & _).
  rewrite (geocode_step_unfold n i addr st w c v f wr Hres). cbv zeta.
  intros H. exists v, f, wr.
  destruct (autosave_due n i && f).
  - destruct (writable wr) eqn:Hwr; simplify_eq. simpl.
    unfold processed, cache_hits. rewrite !omap_app. simpl.
    rewrite !app_nil_r. done.
  - simplify_eq. done.
Qed.

(** The entries of the result dict after a run of the loop: those of the
    addresses that were handled, on top of those it had. *)
Lemma geocode_loop_output n l i st w st2 w2 :
  geocode_loop n i l st w = (Ok st2, w2) ->
  forall a,
    (a ∈ l -> is_Some (geocoded_addresses st2 !! a))
    /\ (a ∉ l -> geocoded_addresses st2 !! a = geocoded_addresses st !! a).
Proof.
  revert l i st w st2 w2. apply (geocode_loop_ok_ind n
    (fun i l st w st2 w2 => forall a,
       (a ∈ l -> is_Some (geocoded_addresses st2 !! a))
       /\ (a ∉ l -> geocoded_addresses st2 !! a = geocoded_addresses st !! a))).
  - intros i st w a. split; [by intros ?%elem_of_nil | done].
  - intros i addr rest st w st1 w1 st2 w2 Hstep _ IH a.
    apply geocode_step_ok in Hstep as (v & f & wr & _ & Hout & _).
    destruct (IH a) as [IHin IHout]. split.
    + intros Hin. destruct (decide (a ∈ rest)) as [|Hn]; [auto|].
      apply elem_of_cons in Hin as [->|]; [|done].
      rewrite (IHout Hn), Hout, lookup_insert_eq. by eexists.
    + intros [Hne Hn]%not_elem_of_cons.
      by rewrite (IHout Hn), Hout, lookup_insert_ne.
Qed.

(** Every address of the batch is handled once, in order. *)
Lemma geocode_loop_processed n l i st w st2 w2 :
  geocode_loop n i l st w = (Ok st2, w2) ->
  processed (log w2) = processed (log w) ++ l.
Proof.
  revert l i st w st2 w2. apply (geocode_loop_ok_ind n
    (fun i l st w st2 w2 => processed (log w2) = processed (log w) ++ l)).
  - intros. by rewrite app_nil_r.
  - intros i addr rest st w st1 w1 st2 w2 Hstep _ IH.
    apply geocode_step_ok in Hstep
      as (v & f & wr & Hres & _ & _ & _ & _ & _ & _ & Hp & _).
    rewrite IH, Hp.
    destruct (resolve_address_spec addr st w)
      as (c' & v' & f' & wr' & Hres' & _ & _ & _ & _ & _ & _ & Hcase).
    rewrite Hres in Hres'. simplify_eq.
    unfold processed.
    destruct (c_geocoding (cache_obj st) !! addr).
    + destruct Hcase as (_ & _ & _ & _ & _ & ->).
      rewrite omap_app. simpl. by rewrite <- app_assoc.
    + destruct Hcase as (_ & (extra & -> & Hex) & _).
      rewrite omap_app. cbn [omap list_omap handled].
      rewrite Hex. by rewrite <- app_assoc.
Qed.

(* ===================================================================== *)
(** ** The returned dict *)
(* ===================================================================== *)

(** C7.  For a list, tuple or set of addresses and a readable cache file:
    when the file is writable, [geocode] returns a dict whose keys are
    exactly the addresses given (an address given twice has its one key),
    every address having been handled once and in order; and for an empty
    collection it returns the empty dict without calling the provider,
    reading the clock or writing the file. *)
Theorem geocode_returns_entry_for_every_address
    (addresses : py_arg) (l : list string) (w : world) :
  accepted addresses = Some l ->
  file w ≠ Corrupt ->
  (writable w = true ->
   exists out w',
     geocode addresses w = (Ok out, w')
     /\ (forall a, a ∈ l <-> is_Some (out !! a))
     /\ processed (log w') = processed (log w) ++ l)
  /\ (l = [] ->
      exists w',
        geocode addresses w = (Ok ∅, w')
        /\ calls w' = calls w /\ ticks w' = ticks w
        /\ nwrites w' = nwrites w /\ file w' = file w).
Proof.
  intros Hacc Hfile. unfold geocode. rewrite Hacc.
  destruct (load_cache_readable w Hfile)
    as (w1 & Hload & Hf1 & Hw1 & Hn1 & Hp1 & Hc1 & _ & Ht1).
  assert (Hlog : processed (log w1) = processed (log w)).
  { revert Hload. py_cases; intros; simplify_eq; simpl;
      unfold processed; rewrite omap_app; simpl; by rewrite app_nil_r. }
  unfold bind at 1. rewrite Hload. split.
  - intros Hw.
    destruct (geocode_loop_total (length l) l 0
                (LoopState (stored_cache w) ∅ false) w1) as (st2 & w2 & Hrun);
      [congruence|].
    unfold bind, ret. rewrite Hrun. exists (geocoded_addresses st2), w2.
    split; [done|]. split.
    + intros a. destruct (geocode_loop_output _ _ _ _ _ _ _ Hrun a) as [Hin Hout].
      split; [exact Hin|]. intros Hsome.
      destruct (decide (a ∈ l)) as [|Hn]; [done|].
      rewrite (Hout Hn) in Hsome. simpl in Hsome.
      rewrite lookup_empty in Hsome. by destruct Hsome.
    + by rewrite (geocode_loop_processed _ _ _ _ _ _ _ Hrun), Hlog.
  - intros ->. exists w1. simpl. unfold bind, ret. rewrite Hload. done.
Qed.

Lemma geocode_returns_entry_for_every_address_witness :
  exists out w',
    geocode (PyTuple ["nowhere"; "offline"; "nowhere"; "221B Baker Street, London"])
      baker_world = (Ok out, w')
    /\ (forall a, a ∈ ["nowhere"; "offline"; "nowhere"; "221B Baker Street, London"]
                  <-> is_Some (out !! a)).
Proof.
  destruct (geocode_returns_entry_for_every_address
              (PyTuple ["nowhere"; "offline"; "nowhere"; "221B Baker Street, London"])
              ["nowhere"; "offline"; "nowhere"; "221B Baker Street, London"]
              baker_world) as [H _]; [reflexivity | discriminate |].
  destruct (H eq_refl) as (out & w' & Hrun & Hdom & _).
  exists out, w'. split; [exact Hrun | exact Hdom].
Defined.

(* ===================================================================== *)
(** ** One iteration, by case *)
(* ===================================================================== *)

Lemma occurrences_app a l1 l2 :
  occurrences a (l1 ++ l2) = occurrences a l1 + occurrences a l2.
Proof. unfold occurrences. by rewrite filter_app, length_app. Qed.

Lemma occurrences_cons a b l :
  occurrences a (b :: l) = (if decide (b = a) then 1 else 0) + occurrences a l.
Proof.
  unfold occurrences. rewrite filter_cons. by destruct (decide (b = a)).
Qed.

Lemma occurrences_nil a : occurrences a [] = 0.
Proof. reflexivity. Qed.

Lemma occurrences_snoc a b l :
  occurrences a (l ++ [b]) = occurrences a l + (if decide (b = a) then 1 else 0).
Proof. rewrite occurrences_app, occurrences_cons, occurrences_nil. lia. Qed.

Lemma not_handled_not_found (l : list log_record) :
  omap handled l = [] -> omap found l = [].
Proof.
  induction l as [|r l IH]; [done|]. by destruct r; simpl; intros H; auto.
Qed.

(** Cache hit. *)
Lemma geocode_step_hit n i addr st w st1 w1 r :
  geocode_step n i addr st w = (Ok st1, w1) ->
  c_geocoding (cache_obj st) !! addr = Some r ->
  cache_obj st1 = cache_obj st
  /\ geocoded_addresses st1 = <[addr := Some r]> (geocoded_addresses st)
  /\ calls w1 = calls w /\ ticks w1 = ticks w
  /\ cache_hits (log w1) = cache_hits (log w) ++ [addr].
Proof.
  intros Hstep Hhit.
  apply geocode_step_ok in Hstep
    as (v & f & wr & Hres & Hout & Hc & Ht & _ & _ & _ & _ & Hh & _).
  destruct (resolve_address_spec addr st w)
    as (c' & v' & f' & wr' & Hres' & _ & _ & _ & _ & _ & _ & Hcase).
  rewrite Hres in Hres'. simplify_eq. rewrite Hhit in Hcase.
  destruct Hcase as (Hcache & -> & _ & Hc' & Ht' & Hl).
  repeat split; try congruence.
  rewrite Hh, Hl. unfold cache_hits. by rewrite omap_app.
Qed.

(** Cache miss: the flag is raised, only the entry of [addr] may change in
    the result dict of the cache, and the provider is called for [addr]
    once or not at all. *)
Lemma geocode_step_miss n i addr st w st1 w1 :
  geocode_step n i addr st w = (Ok st1, w1) ->
  c_geocoding (cache_obj st) !! addr = None ->
  cache_hits (log w1) = cache_hits (log w)
  /\ (forall a, a ≠ addr ->
        c_geocoding (cache_obj st1) !! a = c_geocoding (cache_obj st) !! a)
  /\ (calls w1 = calls w \/ calls w1 = calls w ++ [addr])
  /\ (if autosave_due n i
      then fetched_res_since_last_cachewrite st1 = false
           /\ nwrites w1 = S (nwrites w) /\ file w1 = Pickled (cache_obj st1)
      else fetched_res_since_last_cachewrite st1 = true
           /\ nwrites w1 = nwrites w /\ file w1 = file w).
Proof.
  intros Hstep Hmiss.
  apply geocode_step_ok in Hstep
    as (v & f & wr & Hres & Hout & Hc & Ht & _ & _ & _ & _ & Hh & Hsave).
  destruct (resolve_address_spec addr st w)
    as (c' & v' & f' & wr' & Hres' & Hfile & Hnw & _ & _ & _ & _ & Hcase).
  rewrite Hres in Hres'. simplify_eq. rewrite Hmiss in Hcase.
  destruct Hcase as (-> & (extra & Hl & Hex) & Hrq).
  rewrite andb_true_r in Hsave.
  split; [|split; [|split]].
  - rewrite Hh, Hl. unfold cache_hits. rewrite omap_app.
    cbn [omap list_omap found].
    rewrite (not_handled_not_found _ Hex). by rewrite app_nil_r.
  - intros a Ha. destruct (c_requests (cache_obj st) !! "geocoding").
    + destruct Hrq as (_ & _ & _ & Hans).
      destruct (provider w (calls w) addr) as [[|m ms]|e];
        destruct Hans as [_ ->]; try done. by rewrite lookup_insert_ne.
    + by destruct Hrq as (-> & _).
  - rewrite Hc. destruct (c_requests (cache_obj st) !! "geocoding").
    + right. by destruct Hrq as (-> & _).
    + left. by destruct Hrq as (_ & _ & -> & _).
  - destruct (autosave_due n i).
    + destruct Hsave as (? & ? & ?). repeat split; congruence.
    + destruct Hsave as (? & ->). done.
Qed.

(** Cache miss with the request log in place: the clock is read, the
    timestamp appended, the provider called, and its outcome decides the
    entry of the result dict and whether the cache takes the answer. *)
Lemma geocode_step_miss_call n i addr st w st1 w1 stamps :
  geocode_step n i addr st w = (Ok st1, w1) ->
  c_geocoding (cache_obj st) !! addr = None ->
  c_requests (cache_obj st) !! "geocoding" = Some stamps ->
  calls w1 = calls w ++ [addr] /\ ticks w1 = S (ticks w)
  /\ c_requests (cache_obj st1)
     = <["geocoding" := stamps ++ [now w (ticks w)]]> (c_requests (cache_obj st))
  /\ match provider w (calls w) addr with
     | Returns (m :: ms) =>
         geocoded_addresses st1 = <[addr := Some (m :: ms)]> (geocoded_addresses st)
         /\ c_geocoding (cache_obj st1)
            = <[addr := m :: ms]> (c_geocoding (cache_obj st))
     | Returns [] =>
         geocoded_addresses st1 = <[addr := Some []]> (geocoded_addresses st)
         /\ c_geocoding (cache_obj st1) = c_geocoding (cache_obj st)
     | Raises e =>
         geocoded_addresses st1 = <[addr := None]> (geocoded_addresses st)
         /\ c_geocoding (cache_obj st1) = c_geocoding (cache_obj st)
     end.
Proof.
  intros Hstep Hmiss Hkey.
  apply geocode_step_ok in Hstep
    as (v & f & wr & Hres & Hout & Hc & Ht & _).
  destruct (resolve_address_spec addr st w)
    as (c' & v' & f' & wr' & Hres' & _ & _ & _ & _ & _ & _ & Hcase).
  rewrite Hres in Hres'. simplify_eq. rewrite Hmiss, Hkey in Hcase.
  destruct Hcase as (_ & _ & Hc' & Ht' & Hrq & Hans).
  repeat split; try congruence.
  destruct (provider w (calls w) addr) as [[|m ms]|e];
    destruct Hans as [-> ->]; done.
Qed.

(** Cache miss with no request log under ['geocoding']: the subscript
    raises inside the [try] block, before the clock and the provider are
    reached. *)
Lemma geocode_step_miss_nolog n i addr st w st1 w1 :
  geocode_step n i addr st w = (Ok st1, w1) ->
  c_geocoding (cache_obj st) !! addr = None ->
  c_requests (cache_obj st) !! "geocoding" = None ->
  cache_obj st1 = cache_obj st
  /\ geocoded_addresses st1 = <[addr := None]> (geocoded_addresses st)
  /\ calls w1 = calls w /\ ticks w1 = ticks w.
Proof.
  intros Hstep Hmiss Hkey.
  apply geocode_step_ok in Hstep
    as (v & f & wr & Hres & Hout & Hc & Ht & _).
  destruct (resolve_address_spec addr st w)
    as (c' & v' & f' & wr' & Hres' & _ & _ & _ & _ & _ & _ & Hcase).
  rewrite Hres in Hres'. simplify_eq. rewrite Hmiss, Hkey in Hcase.
  destruct Hcase as (_ & _ & Hc' & -> & ? & ?).
  repeat split; congruence.
Qed.

(* ===================================================================== *)
(** ** Addresses that are in the cache *)
(* ===================================================================== *)

(** Once an address has an entry in the result dict of the cache, the rest
    of the loop keeps the entry, never calls the provider for it, logs a
    cache hit at each of its occurrences and reports the entry. *)
Lemma geocode_loop_cached n l i st w st2 w2 a r :
  geocode_loop n i l st w = (Ok st2, w2) ->
  c_geocoding (cache_obj st) !! a = Some r ->
  c_geocoding (cache_obj st2) !! a = Some r
  /\ occurrences a (calls w2) = occurrences a (calls w)
  /\ occurrences a (cache_hits (log w2))
     = occurrences a (cache_hits (log w)) + occurrences a l
  /\ (a ∈ l -> geocoded_addresses st2 !! a = Some (Some r)).
Proof.
  revert l i st w st2 w2. apply (geocode_loop_ok_ind n
    (fun i l st w st2 w2 =>
       c_geocoding (cache_obj st) !! a = Some r ->
       c_geocoding (cache_obj st2) !! a = Some r
       /\ occurrences a (calls w2) = occurrences a (calls w)
       /\ occurrences a (cache_hits (log w2))
          = occurrences a (cache_hits (log w)) + occurrences a l
       /\ (a ∈ l -> geocoded_addresses st2 !! a = Some (Some r)))).
  - intros i st w Ha. rewrite occurrences_nil, Nat.add_0_r.
    repeat split; try done.
    + intros ?%elem_of_nil. done.
  - intros i addr rest st w st1 w1 st2 w2 Hstep Hrest IH Ha.
    rewrite occurrences_cons.
    destruct (c_geocoding (cache_obj st) !! addr) as [r'|] eqn:Hlook.
    + destruct (geocode_step_hit _ _ _ _ _ _ _ _ Hstep Hlook)
        as (Hc & Hout & Hcalls & _ & Hhits).
      destruct IH as (IH1 & IH2 & IH3 & IH4); [by rewrite Hc|].
      rewrite IH2, IH3, Hcalls, Hhits, occurrences_snoc.
      split; [done|]. split; [done|]. split.
      * lia.
      * intros Hin. destruct (decide (a ∈ rest)) as [|Hn]; [auto|].
        apply elem_of_cons in Hin as [->|]; [|done].
        destruct (geocode_loop_output _ _ _ _ _ _ _ Hrest addr) as [_ Hkeep].
        rewrite (Hkeep Hn), Hout, lookup_insert_eq. congruence.
    + assert (addr ≠ a) as Hne by congruence.
      destruct (geocode_step_miss _ _ _ _ _ _ _ Hstep Hlook)
        as (Hhits & Hc & Hcalls & _).
      destruct IH as (IH1 & IH2 & IH3 & IH4); [rewrite Hc; done|].
      rewrite IH2, IH3, Hhits. rewrite decide_False by done.
      split; [done|]. split; [|split; [lia|]].
      * destruct Hcalls as [->| ->]; [done|].
        rewrite occurrences_snoc, decide_False by done. lia.
      * intros Hin. apply elem_of_cons in Hin as [->|]; [done|auto].
Qed.

(** A cache hit inside the loop: the iteration leaves the cache as it
    is, calls the provider for no address and does not read the clock;
    the loop then runs to its end without a call for that address, and
    its result dict maps the address to the cached entry. *)
Lemma geocode_loop_cache_hit (n i : nat) (addr : string) (rest : list string)
    (st : loop_state) (w : world) (r : list geocode_match) :
  c_geocoding (cache_obj st) !! addr = Some r ->
  writable w = true ->
  exists st1 w1 st2 w2,
    geocode_step n i addr st w = (Ok st1, w1)
    /\ cache_obj st1 = cache_obj st
    /\ calls w1 = calls w /\ ticks w1 = ticks w
    /\ geocoded_addresses st1 !! addr = Some (Some r)
    /\ geocode_loop n i (addr :: rest) st w = (Ok st2, w2)
    /\ occurrences addr (calls w2) = occurrences addr (calls w)
    /\ geocoded_addresses st2 !! addr = Some (Some r).
Proof.
  intros Hhit Hw.
  destruct (geocode_loop_total n (addr :: rest) i st w Hw) as (st2 & w2 & Hrun).
  pose proof Hrun as Hrun'. rewrite geocode_loop_cons in Hrun'.
  destruct (geocode_step n i addr st w) as [[st1|e] w1] eqn:Hstep; [|done].
  destruct (geocode_step_hit _ _ _ _ _ _ _ _ Hstep Hhit)
    as (Hc & Hout & Hcalls & Hticks & _).
  destruct (geocode_loop_cached _ _ _ _ _ _ _ addr r Hrun Hhit)
    as (_ & Hnocall & _ & Hfinal).
  exists st1, w1, st2, w2. repeat split; try done.
  - by rewrite Hout, lookup_insert_eq.
  - apply Hfinal, elem_of_cons. by left.
Qed.

(* ===================================================================== *)
(** ** An address given twice *)
(* ===================================================================== *)

(** When an iteration reports a non-empty answer for its address, the
    address has that answer in the cache afterwards. *)
Lemma geocode_step_answer_cached n i addr st w st1 w1 r :
  geocode_step n i addr st w = (Ok st1, w1) ->
  geocoded_addresses st1 !! addr = Some (Some r) ->
  r ≠ [] ->
  c_geocoding (cache_obj st1) !! addr = Some r.
Proof.
  intros Hstep Hout Hr.
  destruct (c_geocoding (cache_obj st) !! addr) as [r'|] eqn:Hlook.
  - destruct (geocode_step_hit _ _ _ _ _ _ _ _ Hstep Hlook) as (Hc & Ho & _).
    rewrite Ho, lookup_insert_eq in Hout. simplify_eq. by rewrite Hc.
  - destruct (c_requests (cache_obj st) !! "geocoding") as [stamps|] eqn:Hkey.
    + destruct (geocode_step_miss_call _ _ _ _ _ _ _ _ Hstep Hlook Hkey)
        as (_ & _ & _ & Hans).
      destruct (provider w (calls w) addr) as [[|m ms]|e];
        destruct Hans as [Ho Hc]; rewrite Ho, lookup_insert_eq in Hout;
        simplify_eq. by rewrite Hc, lookup_insert_eq.
    + destruct (geocode_step_miss_nolog _ _ _ _ _ _ _ Hstep Hlook Hkey)
        as (_ & Ho & _).
      rewrite Ho, lookup_insert_eq in Hout. simplify_eq.
Qed.

(** When an iteration reports a non-empty answer for its address, the
    provider was called for it at most once in that iteration, and the
    rest of the loop makes no call for it: each later occurrence is
    logged as a cache hit and reported with that same answer. *)
Lemma geocode_loop_repeated_address (n i : nat) (addr : string)
    (rest : list string) (st : loop_state) (w : world)
    (st1 : loop_state) (w1 : world) (r : list geocode_match) :
  writable w = true ->
  geocode_step n i addr st w = (Ok st1, w1) ->
  geocoded_addresses st1 !! addr = Some (Some r) ->
  r ≠ [] ->
  occurrences addr (calls w1) <= occurrences addr (calls w) + 1
  /\ exists st2 w2,
       geocode_loop n (S i) rest st1 w1 = (Ok st2, w2)
       /\ occurrences addr (calls w2) = occurrences addr (calls w1)
       /\ occurrences addr (cache_hits (log w2))
          = occurrences addr (cache_hits (log w1)) + occurrences addr rest
       /\ geocoded_addresses st2 !! addr = Some (Some r).
Proof.
  intros Hw Hstep Hout Hr.
  pose proof (geocode_step_answer_cached _ _ _ _ _ _ _ _ Hstep Hout Hr) as Hc.
  split.
  - destruct (c_geocoding (cache_obj st) !! addr) as [r'|] eqn:Hlook.
    + destruct (geocode_step_hit _ _ _ _ _ _ _ _ Hstep Hlook)
        as (_ & _ & -> & _). lia.
    + destruct (geocode_step_miss _ _ _ _ _ _ _ Hstep Hlook)
        as (_ & _ & [-> | ->] & _); [lia|].
      rewrite occurrences_snoc, decide_True by done. lia.
  - pose proof (geocode_step_evolves n i addr st w) as Hev.
    rewrite Hstep in Hev. simpl in Hev.
    destruct (geocode_loop_total n rest (S i) st1 w1) as (st2 & w2 & Hrun);
      [by rewrite (ev_writable _ _ Hev)|].
    destruct (geocode_loop_cached _ _ _ _ _ _ _ addr r Hrun Hc)
      as (_ & Hcalls & Hhits & Hfinal).
    exists st2, w2. repeat split; try done.
    destruct (decide (addr ∈ rest)) as [|Hn]; [auto|].
    destruct (geocode_loop_output _ _ _ _ _ _ _ Hrun addr) as [_ Hkeep].
    by rewrite (Hkeep Hn).
Qed.

(** The batch [["offline"; "offline"]] on a new cache: the provider times
    out on the first occurrence, nothing is cached, and the second
    occurrence calls the provider again instead of hitting the cache. *)
Lemma geocode_repeated_address_counterexample :
  occurrences "offline" ["offline"; "offline"] = 2
  /\ ~ (occurrences "offline"
          (calls (geocode (PyList ["offline"; "offline"])
                    (fresh_world sample_provider)).2)
        <= occurrences "offline" (calls (fresh_world sample_provider)) + 1)
  /\ cache_hits (log (geocode (PyList ["offline"; "offline"])
                        (fresh_world sample_provider)).2) = [].
Proof. vm_compute. repeat split. lia. Qed.

(* ===================================================================== *)
(** ** Failures of the provider *)
(* ===================================================================== *)

(** A provider that raises, inside the loop: the iteration ends normally
    with [None] under the address and the result dict of the cache
    unchanged, and the loop handles every remaining address. *)
Lemma geocode_loop_provider_failure (n i : nat) (addr : string)
    (rest : list string) (st : loop_state) (w : world) (e : exn) :
  writable w = true ->
  c_geocoding (cache_obj st) !! addr = None ->
  provider w (calls w) addr = Raises e ->
  exists st1 w1 st2 w2,
    geocode_step n i addr st w = (Ok st1, w1)
    /\ geocoded_addresses st1 !! addr = Some None
    /\ c_geocoding (cache_obj st1) = c_geocoding (cache_obj st)
    /\ geocode_loop n i (addr :: rest) st w = (Ok st2, w2)
    /\ geocode_loop n (S i) rest st1 w1 = (Ok st2, w2)
    /\ processed (log w2) = processed (log w) ++ addr :: rest
    /\ (forall a, a ∈ rest -> is_Some (geocoded_addresses st2 !! a))
    /\ (addr ∉ rest -> geocoded_addresses st2 !! addr = Some None).
Proof.
  intros Hw Hmiss Hraise.
  destruct (geocode_loop_total n (addr :: rest) i st w Hw) as (st2 & w2 & Hrun).
  pose proof Hrun as Hrest. rewrite geocode_loop_cons in Hrest.
  destruct (geocode_step n i addr st w) as [[st1|e'] w1] eqn:Hstep; [|done].
  assert (geocoded_addresses st1 !! addr = Some None
          /\ c_geocoding (cache_obj st1) = c_geocoding (cache_obj st))
    as [Hout Hcache].
  { destruct (c_requests (cache_obj st) !! "geocoding") as [stamps|] eqn:Hkey.
    - destruct (geocode_step_miss_call _ _ _ _ _ _ _ _ Hstep Hmiss Hkey)
        as (_ & _ & _ & Hans).
      rewrite Hraise in Hans. destruct Hans as [-> ->].
      by rewrite lookup_insert_eq.
    - destruct (geocode_step_miss_nolog _ _ _ _ _ _ _ Hstep Hmiss Hkey)
        as (-> & -> & _). by rewrite lookup_insert_eq. }
  exists st1, w1, st2, w2. repeat split; try done.
  - apply (geocode_loop_processed _ _ _ _ _ _ _ Hrun).
  - intros a Ha. by apply (geocode_loop_output _ _ _ _ _ _ _ Hrest a).
  - intros Hn. destruct (geocode_loop_output _ _ _ _ _ _ _ Hrest addr) as [_ Hk].
    by rewrite (Hk Hn).
Qed.

(** The two kinds of no result inside the loop: [None] when the provider
    raises, the empty list when it returns the empty list; neither gets
    into the cache. *)
Lemma geocode_loop_none_or_empty (n i : nat) (addr : string)
    (rest : list string) (st : loop_state) (w : world) (stamps : list timestamp) :
  writable w = true ->
  c_geocoding (cache_obj st) !! addr = None ->
  c_requests (cache_obj st) !! "geocoding" = Some stamps ->
  exists st1 w1 st2 w2,
    geocode_step n i addr st w = (Ok st1, w1)
    /\ geocode_loop n i (addr :: rest) st w = (Ok st2, w2)
    /\ (forall e, provider w (calls w) addr = Raises e ->
          geocoded_addresses st1 !! addr = Some None
          /\ c_geocoding (cache_obj st1) !! addr = None
          /\ (addr ∉ rest -> geocoded_addresses st2 !! addr = Some None))
    /\ (provider w (calls w) addr = Returns [] ->
          geocoded_addresses st1 !! addr = Some (Some [])
          /\ c_geocoding (cache_obj st1) !! addr = None
          /\ (addr ∉ rest -> geocoded_addresses st2 !! addr = Some (Some [])))
    /\ (None : pyval) ≠ Some [].
Proof.
  intros Hw Hmiss Hkey.
  destruct (geocode_loop_total n (addr :: rest) i st w Hw) as (st2 & w2 & Hrun).
  pose proof Hrun as Hrest. rewrite geocode_loop_cons in Hrest.
  destruct (geocode_step n i addr st w) as [[st1|e'] w1] eqn:Hstep; [|done].
  destruct (geocode_step_miss_call _ _ _ _ _ _ _ _ Hstep Hmiss Hkey)
    as (_ & _ & _ & Hans).
  destruct (geocode_loop_output _ _ _ _ _ _ _ Hrest addr) as [_ Hk].
  exists st1, w1, st2, w2.
  split; [done|]. split; [done|]. split; [|split; [|done]].
  - intros e He. rewrite He in Hans. destruct Hans as [Ho Hc].
    rewrite Hc. split; [by rewrite Ho, lookup_insert_eq|]. split; [done|].
    intros Hn. by rewrite (Hk Hn), Ho, lookup_insert_eq.
  - intros He. rewrite He in Hans. destruct Hans as [Ho Hc].
    rewrite Hc. split; [by rewrite Ho, lookup_insert_eq|]. split; [done|].
    intros Hn. by rewrite (Hk Hn), Ho, lookup_insert_eq.
Qed.

(* ===================================================================== *)
(** ** The request log *)
(* ===================================================================== *)

(** What one iteration does to the request log and to the calls of the
    provider. *)
Lemma geocode_step_request_log n i addr st w st1 w1 :
  geocode_step n i addr st w = (Ok st1, w1) ->
  match c_geocoding (cache_obj st) !! addr with
  | Some _ =>
      c_requests (cache_obj st1) = c_requests (cache_obj st)
      /\ calls w1 = calls w
  | None =>
      match c_requests (cache_obj st) !! "geocoding" with
      | Some stamps =>
          request_log (cache_obj st1) = stamps ++ [now w (ticks w)]
          /\ calls w1 = calls w ++ [addr]
      | None =>
          c_requests (cache_obj st1) = c_requests (cache_obj st)
          /\ calls w1 = calls w
      end
  end.
Proof.
  intros Hstep.
  destruct (c_geocoding (cache_obj st) !! addr) as [r|] eqn:Hlook.
  - destruct (geocode_step_hit _ _ _ _ _ _ _ _ Hstep Hlook) as (-> & _ & -> & _).
    done.
  - destruct (c_requests (cache_obj st) !! "geocoding") as [stamps|] eqn:Hkey.
    + destruct (geocode_step_miss_call _ _ _ _ _ _ _ _ Hstep Hlook Hkey)
        as (-> & _ & Hrq & _).
      split; [|done]. unfold request_log. by rewrite Hrq, lookup_insert_eq.
    + destruct (geocode_step_miss_nolog _ _ _ _ _ _ _ Hstep Hlook Hkey)
        as (-> & _ & -> & _). done.
Qed.

(** Over a run of the loop, the request log grows by as many timestamps
    as the provider was called. *)
Lemma geocode_loop_request_log n l i st w st2 w2 :
  geocode_loop n i l st w = (Ok st2, w2) ->
  exists stamps new,
    request_log (cache_obj st2) = request_log (cache_obj st) ++ stamps
    /\ calls w2 = calls w ++ new
    /\ length stamps = length new.
Proof.
  revert l i st w st2 w2. apply (geocode_loop_ok_ind n
    (fun i l st w st2 w2 =>
       exists stamps new,
         request_log (cache_obj st2) = request_log (cache_obj st) ++ stamps
         /\ calls w2 = calls w ++ new
         /\ length stamps = length new)).
  - intros. exists [], []. by rewrite !app_nil_r.
  - intros i addr rest st w st1 w1 st2 w2 Hstep _ (stamps & new & Hs & Hc & Hlen).
    apply geocode_step_request_log in Hstep.
    destruct (c_geocoding (cache_obj st) !! addr);
      [|destruct (c_requests (cache_obj st) !! "geocoding") as [stamps0|] eqn:Hkey].
    + destruct Hstep as [Hrq Hcalls]. exists stamps, new.
      unfold request_log in *. rewrite <- Hrq, <- Hcalls. done.
    + destruct Hstep as [Hrq Hcalls].
      exists (now w (ticks w) :: stamps), (addr :: new).
      rewrite Hs, Hc, Hrq, Hcalls, <- !app_assoc. simpl.
      unfold request_log at 1. rewrite Hkey. simpl. by rewrite Hlen.
    + destruct Hstep as [Hrq Hcalls]. exists stamps, new.
      unfold request_log in *. rewrite <- Hrq, <- Hcalls. done.
Qed.

(** C6.  For any address and any behaviour of the provider, the cache
    file being writable: an iteration that finds the address in the cache
    leaves the request dict and the calls of the provider as they are; an
    iteration that does not find it appends exactly one timestamp, the
    reading of the clock, to the request log and calls the provider
    exactly once, whatever the provider then does (with no request log
    under ['geocoding'] neither happens).  Over the whole loop the request
    log grows by exactly as many timestamps as the provider was called. *)
Theorem geocode_request_log (n i : nat) (addr : string) (rest : list string)
    (st : loop_state) (w : world) :
  writable w = true ->
  exists st1 w1 st2 w2,
    geocode_step n i addr st w = (Ok st1, w1)
    /\ match c_geocoding (cache_obj st) !! addr with
       | Some _ =>
           c_requests (cache_obj st1) = c_requests (cache_obj st)
           /\ calls w1 = calls w
       | None =>
           match c_requests (cache_obj st) !! "geocoding" with
           | Some stamps =>
               request_log (cache_obj st1) = stamps ++ [now w (ticks w)]
               /\ calls w1 = calls w ++ [addr]
           | None =>
               c_requests (cache_obj st1) = c_requests (cache_obj st)
               /\ calls w1 = calls w
           end
       end
    /\ geocode_loop n i (addr :: rest) st w = (Ok st2, w2)
    /\ exists stamps new,
         request_log (cache_obj st2) = request_log (cache_obj st) ++ stamps
         /\ calls w2 = calls w ++ new
         /\ length stamps = length new.
Proof.
  intros Hw.
  destruct (geocode_loop_total n (addr :: rest) i st w Hw) as (st2 & w2 & Hrun).
  pose proof Hrun as Hrest. rewrite geocode_loop_cons in Hrest.
  destruct (geocode_step n i addr st w) as [[st1|e'] w1] eqn:Hstep; [|done].
  exists st1, w1, st2, w2. split; [done|]. split.
  - by apply (geocode_step_request_log n i).
  - split; [done|]. by apply (geocode_loop_request_log n (addr :: rest) i).
Qed.

Lemma geocode_request_log_witness :
  exists st1 w1 st2 w2,
    geocode_step 3 0 "offline" baker_state baker_world = (Ok st1, w1)
    /\ request_log (cache_obj st1) = [7%Z; 0%Z]
    /\ calls w1 = ["offline"]
    /\ geocode_loop 3 0 ["offline"; "221B Baker Street, London"; "nowhere"]
         baker_state baker_world = (Ok st2, w2)
    /\ exists stamps new,
         request_log (cache_obj st2) = [7%Z] ++ stamps
         /\ calls w2 = new
         /\ length stamps = length new.
Proof.
  destruct (geocode_request_log 3 0 "offline"
              ["221B Baker Street, London"; "nowhere"] baker_state baker_world)
    as (st1 & w1 & st2 & w2 & Hstep & (Hlog & Hcalls) & Hrun & Htotal);
    [reflexivity|].
  exists st1, w1, st2, w2. repeat split; assumption.
Defined.

(* ===================================================================== *)
(** ** Autosave *)
(* ===================================================================== *)

Lemma autosave_due_spec (n i : nat) :
  autosave_due n i = true <-> S i mod 10 = 0 \/ S i = n.
Proof.
  unfold autosave_due, AUTSAVE_CACHE_EVERY_NTH_REQUEST.
  rewrite orb_true_iff, !Z.eqb_eq. lia.
Qed.

(** The log of cache hits only grows along the loop. *)
Lemma geocode_loop_cache_hits n l i st w :
  exists more,
    cache_hits (log (geocode_loop n i l st w).2) = cache_hits (log w) ++ more.
Proof.
  destruct (ev_log _ _ (geocode_loop_evolves n l i st w)) as [extra ->].
  exists (cache_hits extra). unfold cache_hits. by rewrite omap_app.
Qed.

(** A run of the loop without a cache hit: the cache is written after each
    tenth address and after the last one, and nothing fetched is left
    unwritten. *)
Lemma geocode_loop_all_fresh n l i st w st2 w2 :
  geocode_loop n i l st w = (Ok st2, w2) ->
  i + length l = n ->
  cache_hits (log w2) = cache_hits (log w) ->
  l ≠ [] ->
  nwrites w2 + i / 10 = nwrites w + ceil_div n 10
  /\ fetched_res_since_last_cachewrite st2 = false
  /\ file w2 = Pickled (cache_obj st2).
Proof.
  revert l i st w st2 w2. apply (geocode_loop_ok_ind n
    (fun i l st w st2 w2 =>
       i + length l = n ->
       cache_hits (log w2) = cache_hits (log w) ->
       l ≠ [] ->
       nwrites w2 + i / 10 = nwrites w + ceil_div n 10
       /\ fetched_res_since_last_cachewrite st2 = false
       /\ file w2 = Pickled (cache_obj st2))); [done|].
  intros i addr rest st w st1 w1 st2 w2 Hstep Hrest IH Hlen Hhits _.
  simpl in Hlen.
  destruct (geocode_loop_cache_hits n rest (S i) st1 w1) as [more Hmore].
  rewrite Hrest in Hmore. simpl in Hmore.
  destruct (c_geocoding (cache_obj st) !! addr) as [r|] eqn:Hlook.
  { destruct (geocode_step_hit _ _ _ _ _ _ _ _ Hstep Hlook) as (_ & _ & _ & _ & Hh).
    rewrite Hh, <- app_assoc in Hmore. rewrite Hmore in Hhits.
    apply (f_equal length) in Hhits. rewrite length_app in Hhits.
    simpl in Hhits. lia. }
  destruct (geocode_step_miss _ _ _ _ _ _ _ Hstep Hlook)
    as (Hh & _ & _ & Hsave).
  assert (more = []) as ->.
  { rewrite Hh, Hhits in Hmore. apply (f_equal length) in Hmore.
    rewrite length_app in Hmore. destruct more; [done|simpl in Hmore; lia]. }
  rewrite app_nil_r in Hmore.
  pose proof (autosave_due_spec n i) as Hdue. unfold ceil_div in *.
  destruct rest as [|addr' rest'].
  - simpl in Hrest, Hlen. unfold ret in Hrest. injection Hrest as <- <-.
    clear IH Hmore.
    destruct (autosave_due n i).
    + destruct Hsave as (-> & -> & ->). split; [lia|done].
    + exfalso. destruct Hdue as [_ Hdue].
      assert (false = true) by (apply Hdue; lia). done.
  - destruct IH as (IHn & IHf & IHfile); [simpl in *; lia | congruence | done |].
    split; [|done]. simpl in Hlen.
    destruct (autosave_due n i).
    + destruct Hsave as (_ & Hn & _).
      destruct Hdue as [Hdue _]. destruct (Hdue eq_refl) as [Hm|]; lia.
    + destruct Hsave as (_ & Hn & _).
      assert (S i mod 10 ≠ 0) by (intros Hm; destruct Hdue as [_ Hdue];
        by specialize (Hdue (or_introl Hm))).
      lia.
Qed.

(** The autosave of one iteration.  The flag is up when it was up before
    or the address was not found in the cache; the cache is written when
    the flag is up at a tenth address or at the last one, and the write
    takes the flag down. *)
Lemma geocode_step_autosave n i addr st w st1 w1 :
  geocode_step n i addr st w = (Ok st1, w1) ->
  let fetched :=
    fetched_res_since_last_cachewrite st
    || bool_decide (c_geocoding (cache_obj st) !! addr = None) in
  if autosave_due n i && fetched
  then nwrites w1 = S (nwrites w)
       /\ file w1 = Pickled (cache_obj st1)
       /\ fetched_res_since_last_cachewrite st1 = false
  else nwrites w1 = nwrites w
       /\ file w1 = file w
       /\ fetched_res_since_last_cachewrite st1 = fetched.
Proof.
  intros Hstep fetched. subst fetched.
  apply geocode_step_ok in Hstep
    as (v & f & wr & Hres & _ & _ & _ & _ & _ & _ & _ & _ & Hsave).
  destruct (resolve_address_spec addr st w)
    as (c' & v' & f' & wr' & Hres' & Hfile & Hnw & _ & _ & _ & _ & Hcase).
  rewrite Hres in Hres'. simplify_eq.
  assert (f' = fetched_res_since_last_cachewrite st
               || bool_decide (c_geocoding (cache_obj st) !! addr = None))
    as <-.
  { destruct (c_geocoding (cache_obj st) !! addr).
    - destruct Hcase as (_ & _ & -> & _).
      rewrite bool_decide_eq_false_2 by done. by rewrite orb_false_r.
    - destruct Hcase as (-> & _). by rewrite orb_true_r. }
  destruct (autosave_due n i && f').
  - destruct Hsave as (? & ? & ?). repeat split; congruence.
  - destruct Hsave as (? & ->). done.
Qed.

(** C1.  For a batch of K addresses none of which is found in the cache
    when its turn comes (no cache hit is logged during the call), with a
    readable and writable cache file, [geocode] returns normally and has
    written the cache file exactly ceil(K / 10) times.  The flag
    [fetched_res_since_last_cachewrite] is down when the loop ends, and
    for a non-empty batch the file holds the cache as it is after the
    last address.  In any iteration the cache is written when the flag is
    up (it was up, or the address was not in the cache) at a tenth
    address or at the last one, the write being one write of the cache
    in memory and taking the flag down; otherwise nothing is written and
    the flag stays. *)
Theorem geocode_autosave_count (addresses : py_arg) (l : list string)
    (w : world) :
  accepted addresses = Some l ->
  file w ≠ Corrupt ->
  writable w = true ->
  cache_hits (log (geocode addresses w).2) = cache_hits (log w) ->
  (exists out w' st',
     geocode addresses w = (Ok out, w')
     /\ nwrites w' = nwrites w + ceil_div (length l) 10
     /\ geocode_loop (length l) 0 l (LoopState (stored_cache w) ∅ false)
          (_load_cache w).2 = (Ok st', w')
     /\ out = geocoded_addresses st'
     /\ fetched_res_since_last_cachewrite st' = false
     /\ (l ≠ [] -> file w' = Pickled (cache_obj st')))
  /\ (forall n i addr st0 w0 st1 w1,
        geocode_step n i addr st0 w0 = (Ok st1, w1) ->
        let fetched :=
          fetched_res_since_last_cachewrite st0
          || bool_decide (c_geocoding (cache_obj st0) !! addr = None) in
        if autosave_due n i && fetched
        then nwrites w1 = S (nwrites w0)
             /\ file w1 = Pickled (cache_obj st1)
             /\ fetched_res_since_last_cachewrite st1 = false
        else nwrites w1 = nwrites w0
             /\ file w1 = file w0
             /\ fetched_res_since_last_cachewrite st1 = fetched).
Proof.
  intros Hacc Hfile Hw Hhits. split; [|apply geocode_step_autosave].
  unfold geocode in *. rewrite Hacc in *.
  destruct (load_cache_readable w Hfile)
    as (w1 & Hload & Hf1 & Hw1 & Hn1 & _).
  assert (Hlog : cache_hits (log w1) = cache_hits (log w)).
  { revert Hload. py_cases; intros; simplify_eq; simpl;
      unfold cache_hits; rewrite omap_app; simpl; by rewrite app_nil_r. }
  unfold bind at 1 in Hhits. unfold bind at 1. rewrite Hload in *. simpl.
  destruct (geocode_loop_total (length l) l 0
              (LoopState (stored_cache w) ∅ false) w1) as (st2 & w2 & Hrun);
    [congruence|].
  unfold bind, ret in *. rewrite Hrun in *. simpl in Hhits.
  exists (geocoded_addresses st2), w2, st2.
  split; [done|]. destruct l as [|a l'].
  - simpl in Hrun. unfold ret in Hrun. simplify_eq. simpl.
    unfold ceil_div. simpl. rewrite Hn1. repeat split; try done; lia.
  - destruct (geocode_loop_all_fresh _ _ _ _ _ _ _ Hrun)
      as (Hn & Hflag & Hfile'); [done | congruence | done |].
    change (0 / 10) with 0 in Hn. rewrite Nat.add_0_r, Hn1 in Hn. done.
Qed.

Lemma geocode_autosave_count_witness :
  exists out w' st',
    geocode (PyList eleven) (fresh_world sample_provider) = (Ok out, w')
    /\ nwrites w' = 2
    /\ fetched_res_since_last_cachewrite st' = false
    /\ file w' = Pickled (cache_obj st').
Proof.
  destruct (geocode_autosave_count (PyList eleven) eleven
              (fresh_world sample_provider))
    as [(out & w' & st' & Hrun & Hn & _ & _ & Hflag & Hfile) _];
    [reflexivity | discriminate | reflexivity | reflexivity |].
  exists out, w', st'. repeat split; try assumption.
  apply Hfile. discriminate.
Defined.

(* ===================================================================== *)
(** ** What gets into the cache *)
(* ===================================================================== *)

Lemma justified_evolves w w' c :
  evolves w w' -> justified w c -> justified w' c.
Proof.
  intros Hev Hj a r Hlook. destruct (Hj a r Hlook) as (Hr & h & Hpre & Hans).
  split; [done|]. exists h. split.
  - etrans; [exact Hpre | apply (ev_calls _ _ Hev)].
  - by rewrite (ev_provider _ _ Hev).
Qed.

Lemma justified_new_cache w : justified w new_cache.
Proof. intros a r. simpl. by rewrite lookup_empty. Qed.

Lemma justified_never_succeeds w c a :
  justified w c -> never_succeeds w a -> c_geocoding c !! a = None.
Proof.
  intros Hj Hnever. destruct (c_geocoding c !! a) as [r|] eqn:Hlook; [|done].
  destruct (Hj a r Hlook) as (Hr & h & _ & Hans).
  specialize (Hnever h). rewrite Hans in Hnever. by destruct r.
Qed.

(** [resolve_address] only puts answers of the provider into the cache. *)
Lemma resolve_address_justified addr st w c v f wr :
  resolve_address addr st w = (Ok (c, v, f), wr) ->
  justified w (cache_obj st) ->
  justified wr c.
Proof.
  intros Hres Hj.
  pose proof (resolve_address_evolves _ _ _ _ _ _ _ Hres) as Hev.
  apply (justified_evolves _ _ _ Hev) in Hj.
  destruct (resolve_address_spec addr st w)
    as (c' & v' & f' & wr' & Hres' & _ & _ & _ & Hprov & _ & _ & Hcase).
  rewrite Hres in Hres'. simplify_eq.
  destruct (c_geocoding (cache_obj st) !! addr) as [r|].
  { by destruct Hcase as (-> & _). }
  destruct Hcase as (_ & _ & Hrq).
  destruct (c_requests (cache_obj st) !! "geocoding") as [stamps|];
    [|by destruct Hrq as (-> & _)].
  destruct Hrq as (Hcalls & _ & _ & Hans).
  destruct (provider w (calls w) addr) as [[|m ms]|e] eqn:Hp;
    destruct Hans as [_ Hc]; intros a r; rewrite Hc; try apply Hj.
  destruct (decide (a = addr)) as [->|Hne].
  - rewrite lookup_insert_eq. intros [= <-]. split; [done|].
    exists (calls w). split; [by rewrite Hcalls | by rewrite Hprov].
  - rewrite lookup_insert_ne by done. apply Hj.
Qed.

(** One iteration keeps both the cache in memory and the cache on file
    justified, also when the autosave raises. *)
Lemma geocode_step_justified n i addr st w :
  justified w (cache_obj st) ->
  justified w (stored_cache w) ->
  justified (geocode_step n i addr st w).2
    (stored_cache (geocode_step n i addr st w).2)
  /\ forall st1, (geocode_step n i addr st w).1 = Ok st1 ->
       justified (geocode_step n i addr st w).2 (cache_obj st1).
Proof.
  intros Hmem Hfile.
  destruct (resolve_address_spec addr st w)
    as (c & v & f & wr & Hres & Hf & _).
  rewrite (geocode_step_unfold n i addr st w c v f wr Hres). cbv zeta.
  pose proof (resolve_address_justified _ _ _ _ _ _ _ Hres Hmem) as Hc.
  pose proof (resolve_address_evolves _ _ _ _ _ _ _ Hres) as Hev.
  assert (justified wr (stored_cache wr)) as Hfile'.
  { unfold stored_cache. rewrite Hf. by apply (justified_evolves w). }
  destruct (autosave_due n i && f); [destruct (writable wr)|]; simpl.
  - assert (forall c', justified wr c' ->
              justified (set_file (set_log wr (log wr ++ [InfoWritingCache]))
                           (Pickled c) (S (nwrites wr))) c') as Hsame.
    { intros c' Hj a r Hlook. destruct (Hj a r Hlook) as (Hr & h & Hpre & Hans).
      split; [done|]. by exists h. }
    split; [by apply Hsame|]. intros st1 [= <-]. by apply Hsame.
  - split; [done|]. by intros st1 [=].
  - split; [done|]. by intros st1 [= <-].
Qed.

Lemma geocode_loop_justified n l : forall i st w,
  justified w (cache_obj st) ->
  justified w (stored_cache w) ->
  justified (geocode_loop n i l st w).2
    (stored_cache (geocode_loop n i l st w).2).
Proof.
  induction l as [|addr rest IH]; intros i st w Hmem Hfile; [done|].
  rewrite geocode_loop_cons.
  destruct (geocode_step_justified n i addr st w Hmem Hfile) as [Hfile1 Hmem1].
  destruct (geocode_step n i addr st w) as [[st1|e] w1]; simpl in *; [|done].
  apply IH; [by apply Hmem1 | done].
Qed.

Lemma geocode_justified addresses w :
  justified w (stored_cache w) ->
  justified (geocode addresses w).2 (stored_cache (geocode addresses w).2).
Proof.
  intros Hj. destruct (geocode addresses w) as [res w'] eqn:Hrun. simpl.
  unfold geocode in Hrun.
  destruct (accepted addresses) as [l|];
    [|unfold raise in Hrun; by simplify_eq].
  unfold bind at 1 in Hrun.
  pose proof (load_cache_evolves w) as Hev.
  assert (file (_load_cache w).2 = file w) as Hf by (py_cases; done).
  assert (forall c, (_load_cache w).1 = Ok c -> c = stored_cache w) as Hc.
  { unfold stored_cache. py_cases; congruence. }
  destruct (_load_cache w) as [[c|e] w1]; simpl in *.
  - rewrite (Hc c eq_refl) in Hrun. unfold bind, ret in Hrun.
    assert (justified w1 (stored_cache w1)) as Hfile1.
    { unfold stored_cache. rewrite Hf. by apply (justified_evolves w). }
    pose proof (geocode_loop_justified (length l) l 0
                  (LoopState (stored_cache w) ∅ false) w1
                  (justified_evolves _ _ _ Hev Hj) Hfile1) as H.
    destruct (geocode_loop _ _ _ _ _) as [[st|e] w2]; simpl in *;
      by simplify_eq.
  - simplify_eq. unfold stored_cache. rewrite Hf. by apply (justified_evolves w).
Qed.

(** An iteration leaves the file as it is or writes the cache it ends
    with. *)
Lemma geocode_step_file n i addr st w st1 w1 :
  geocode_step n i addr st w = (Ok st1, w1) ->
  file w1 = file w \/ file w1 = Pickled (cache_obj st1).
Proof.
  intros Hstep.
  apply geocode_step_ok in Hstep
    as (v & f & wr & Hres & _ & _ & _ & _ & _ & _ & _ & _ & Hsave).
  destruct (resolve_address_spec addr st w)
    as (c' & v' & f' & wr' & Hres' & Hfile & _).
  rewrite Hres in Hres'. simplify_eq.
  destruct (autosave_due n i && f').
  - right. by destruct Hsave as (_ & _ & ->).
  - left. by destruct Hsave as (_ & ->).
Qed.

(** An address for which the provider never gives a non-empty answer is
    never cached, and the provider is called at each of its occurrences;
    the request log stays in place, in memory and on file. *)
Lemma geocode_loop_retried n l i st w st2 w2 a :
  geocode_loop n i l st w = (Ok st2, w2) ->
  never_succeeds w a ->
  c_geocoding (cache_obj st) !! a = None ->
  is_Some (c_requests (cache_obj st) !! "geocoding") ->
  file w ≠ Corrupt ->
  is_Some (c_requests (stored_cache w) !! "geocoding") ->
  c_geocoding (cache_obj st2) !! a = None
  /\ is_Some (c_requests (cache_obj st2) !! "geocoding")
  /\ file w2 ≠ Corrupt
  /\ is_Some (c_requests (stored_cache w2) !! "geocoding")
  /\ occurrences a (calls w2) = occurrences a (calls w) + occurrences a l.
Proof.
  revert l i st w st2 w2. apply (geocode_loop_ok_ind n
    (fun i l st w st2 w2 =>
       never_succeeds w a ->
       c_geocoding (cache_obj st) !! a = None ->
       is_Some (c_requests (cache_obj st) !! "geocoding") ->
       file w ≠ Corrupt ->
       is_Some (c_requests (stored_cache w) !! "geocoding") ->
       c_geocoding (cache_obj st2) !! a = None
       /\ is_Some (c_requests (cache_obj st2) !! "geocoding")
       /\ file w2 ≠ Corrupt
       /\ is_Some (c_requests (stored_cache w2) !! "geocoding")
       /\ occurrences a (calls w2) = occurrences a (calls w) + occurrences a l)).
  - intros i st w _ Ha Hkey Hfile Hfkey.
    rewrite occurrences_nil, Nat.add_0_r. done.
  - intros i addr rest st w st1 w1 st2 w2 Hstep _ IH Hnever Ha Hkey Hfile Hfkey.
    pose proof (geocode_step_evolves n i addr st w) as Hev.
    rewrite Hstep in Hev. simpl in Hev.
    assert (c_geocoding (cache_obj st1) !! a = None
            /\ is_Some (c_requests (cache_obj st1) !! "geocoding")
            /\ occurrences a (calls w1)
               = occurrences a (calls w) + (if decide (addr = a) then 1 else 0))
      as (Ha1 & Hkey1 & Hcalls1).
    { destruct (c_geocoding (cache_obj st) !! addr) as [r|] eqn:Hlook.
      - destruct (geocode_step_hit _ _ _ _ _ _ _ _ Hstep Hlook)
          as (-> & _ & -> & _).
        rewrite decide_False by congruence. split; [done|]. split; [done|lia].
      - destruct Hkey as [stamps Hkey].
        destruct (geocode_step_miss_call _ _ _ _ _ _ _ _ Hstep Hlook Hkey)
          as (-> & _ & Hrq & Hans).
        rewrite occurrences_snoc. split; [|split; [|done]].
        + destruct (provider w (calls w) addr) as [[|m ms]|e] eqn:Hp;
            destruct Hans as [_ ->]; try done.
          destruct (decide (a = addr)) as [->|Hne];
            [|by rewrite lookup_insert_ne].
          specialize (Hnever (calls w)). by rewrite Hp in Hnever.
        + rewrite Hrq, lookup_insert_eq. by eexists. }
    assert (file w1 ≠ Corrupt
            /\ is_Some (c_requests (stored_cache w1) !! "geocoding"))
      as (Hfile1 & Hfkey1).
    { unfold stored_cache in *.
      destruct (geocode_step_file _ _ _ _ _ _ _ Hstep) as [-> | ->]; done. }
    destruct IH as (IH1 & IH2 & IH3 & IH4 & IH5); try done.
    { intros h. rewrite (ev_provider _ _ Hev). apply Hnever. }
    rewrite IH5, Hcalls1, occurrences_cons. repeat split; try done. lia.
Qed.

Lemma geocode_retried addresses w a :
  file w ≠ Corrupt ->
  writable w = true ->
  is_Some (c_requests (stored_cache w) !! "geocoding") ->
  never_succeeds w a ->
  c_geocoding (stored_cache w) !! a = None ->
  file (geocode addresses w).2 ≠ Corrupt
  /\ is_Some (c_requests (stored_cache (geocode addresses w).2) !! "geocoding")
  /\ occurrences a (calls (geocode addresses w).2)
     = occurrences a (calls w)
       + match accepted addresses with
         | Some l => occurrences a l
         | None => 0
         end.
Proof.
  intros Hfile Hw Hkey Hnever Ha.
  destruct (geocode addresses w) as [res w'] eqn:Hrun. simpl.
  unfold geocode in Hrun.
  destruct (accepted addresses) as [l|];
    [|unfold raise in Hrun; simplify_eq; repeat split; try done; lia].
  destruct (load_cache_readable w Hfile)
    as (w1 & Hload & Hf1 & Hw1 & _ & Hp1 & Hc1 & _).
  unfold bind at 1 in Hrun. rewrite Hload in Hrun.
  destruct (geocode_loop_total (length l) l 0
              (LoopState (stored_cache w) ∅ false) w1) as (st2 & w2 & Hloop);
    [congruence|].
  unfold bind, ret in Hrun. rewrite Hloop in Hrun. simplify_eq.
  destruct (geocode_loop_retried _ _ _ _ _ _ _ a Hloop)
    as (_ & _ & Hfile2 & Hkey2 & Hcalls); try done.
  - intros h. rewrite Hp1. apply Hnever.
  - by rewrite Hf1.
  - unfold stored_cache in *. by rewrite Hf1.
  - by rewrite Hcalls, Hc1.
Qed.

(** C2.  Start from a cache file whose entries are all non-empty answers
    that the provider gave to recorded calls (a missing file, for one).
    After any sequence of [geocode] calls the file is again such: an
    address has an entry only if a call of the provider for it returned
    that entry, not empty.  So an address for which the provider only
    raises or returns the empty list has no entry afterwards, and, with a
    readable and writable file holding a request log, the provider is
    called for it once for each of its occurrences in the batches. *)
Theorem geocode_caches_only_answers (batches : list py_arg) (w : world) :
  justified w (stored_cache w) ->
  justified (geocode_batches batches w)
    (stored_cache (geocode_batches batches w))
  /\ forall a,
       never_succeeds w a ->
       c_geocoding (stored_cache (geocode_batches batches w)) !! a = None
       /\ (file w ≠ Corrupt ->
           writable w = true ->
           is_Some (c_requests (stored_cache w) !! "geocoding") ->
           occurrences a (calls (geocode_batches batches w))
           = occurrences a (calls w) + batch_occurrences a batches).
Proof.
  revert w. induction batches as [|b rest IH]; intros w Hj.
  - simpl. split; [done|]. intros a Hnever.
    split; [by apply (justified_never_succeeds w)|]. intros. lia.
  - simpl. pose proof (geocode_justified b w Hj) as Hj1.
    pose proof (geocode_evolves b w) as Hev.
    destruct (IH _ Hj1) as [IHj IHa]. split; [done|].
    intros a Hnever.
    assert (never_succeeds (geocode b w).2 a) as Hnever1.
    { intros h. rewrite (ev_provider _ _ Hev). apply Hnever. }
    destruct (IHa a Hnever1) as [IHnone IHcalls]. split; [done|].
    intros Hfile Hw Hkey.
    destruct (geocode_retried b w a Hfile Hw Hkey Hnever)
      as (Hfile1 & Hkey1 & Hcalls1);
      [by apply (justified_never_succeeds w)|].
    rewrite IHcalls, Hcalls1; try done; [lia|].
    by rewrite (ev_writable _ _ Hev).
Qed.

Lemma geocode_caches_only_answers_witness :
  justified
    (geocode_batches [PyList ["nowhere"; "Oxford"]; PySet ["offline"; "nowhere"]]
       (fresh_world sample_provider))
    (stored_cache
       (geocode_batches [PyList ["nowhere"; "Oxford"]; PySet ["offline"; "nowhere"]]
          (fresh_world sample_provider)))
  /\ c_geocoding
       (stored_cache
          (geocode_batches [PyList ["nowhere"; "Oxford"]; PySet ["offline"; "nowhere"]]
             (fresh_world sample_provider))) !! "nowhere" = None
  /\ occurrences "nowhere"
       (calls
          (geocode_batches [PyList ["nowhere"; "Oxford"]; PySet ["offline"; "nowhere"]]
             (fresh_world sample_provider))) = 2.
Proof.
  destruct (geocode_caches_only_answers
              [PyList ["nowhere"; "Oxford"]; PySet ["offline"; "nowhere"]]
              (fresh_world sample_provider)) as [Hj Ha].
  - intros a r Hlook. simpl in Hlook. rewrite lookup_empty in Hlook.
    discriminate Hlook.
  - split; [exact Hj|].
    destruct (Ha "nowhere") as [Hnone Hcalls].
    + intros h. reflexivity.
    + split; [exact Hnone|].
      apply Hcalls; [discriminate | reflexivity | eexists; reflexivity].
Defined.

(* ===================================================================== *)
(** ** The cache file: round trips, clearing, errors *)
(* ===================================================================== *)

(** X3.  With a readable cache file, [remove_item_from_cache] for a
    section other than ['geocoding'] and ['_requests'] raises after the
    load: [TypeError] for ['_version'] (the test [in] on an integer),
    [KeyError] for any other name.  Nothing is written and the file is as
    it was. *)
Theorem remove_item_from_cache_bad_section (item_id section : string)
    (w : world) :
  section ≠ "geocoding" ->
  section ≠ "_requests" ->
  file w ≠ Corrupt ->
  exists w',
    remove_item_from_cache item_id section w
      = (Raise (if decide (section = "_version") then TypeError else KeyError), w')
    /\ file w' = file w /\ nwrites w' = nwrites w /\ calls w' = calls w.
Proof.
  intros Hg Hr Hf. py_cases; eexists; repeat split; done.
Qed.

Lemma remove_item_from_cache_bad_section_witness :
  exists w',
    remove_item_from_cache "221B Baker Street, London" "reverse_geocoding"
      baker_world = (Raise KeyError, w')
    /\ file w' = Pickled baker_cache /\ nwrites w' = 0.
Proof.
  destruct (remove_item_from_cache_bad_section
              "221B Baker Street, London" "reverse_geocoding" baker_world)
    as (w' & Hrun & Hf & Hn & _); [discriminate | discriminate | discriminate |].
  exists w'. repeat split; assumption.
Defined.

(** X4.  With a cache file that cannot be unpickled, [geocode] on a list,
    tuple or set and [remove_item_from_cache] on any section raise the
    error of the load: the provider is not called, the clock is not read,
    nothing is written and the file stays as it is. *)
Theorem corrupt_file_raises (addresses : py_arg) (l : list string)
    (item_id section : string) (w : world) :
  accepted addresses = Some l ->
  file w = Corrupt ->
  (exists w',
     geocode addresses w = (Raise UnpicklingError, w')
     /\ file w' = Corrupt /\ nwrites w' = nwrites w
     /\ calls w' = calls w /\ ticks w' = ticks w)
  /\ (exists w',
       remove_item_from_cache item_id section w = (Raise UnpicklingError, w')
       /\ file w' = Corrupt /\ nwrites w' = nwrites w
       /\ calls w' = calls w /\ ticks w' = ticks w).
Proof.
  intros Hacc Hf. unfold geocode. rewrite Hacc. split.
  - py_cases. eexists. repeat split; done.
  - py_cases; eexists; repeat split; done.
Qed.

Lemma corrupt_file_raises_witness :
  exists w',
    geocode (PyList ["Oxford"]) corrupt_world = (Raise UnpicklingError, w')
    /\ calls w' = [] /\ nwrites w' = 0.
Proof.
  destruct (corrupt_file_raises (PyList ["Oxford"]) ["Oxford"]
              "Oxford" "geocoding" corrupt_world)
    as [(w' & Hrun & _ & Hn & Hc & _) _]; [reflexivity | reflexivity |].
  exists w'. repeat split; assumption.
Defined.

(* ===================================================================== *)
(** ** What [geocode] leaves on file *)
(* ===================================================================== *)

(** [geocode] on an accepted argument, with a readable and writable cache
    file: the load, the loop from the loaded cache, the result dict. *)
Lemma geocode_run (addresses : py_arg) (l : list string) (w : world) :
  accepted addresses = Some l ->
  file w ≠ Corrupt ->
  writable w = true ->
  exists w1 st2 w2,
    _load_cache w = (Ok (stored_cache w), w1)
    /\ file w1 = file w /\ writable w1 = true /\ nwrites w1 = nwrites w
    /\ provider w1 = provider w /\ calls w1 = calls w
    /\ now w1 = now w /\ ticks w1 = ticks w
    /\ cache_hits (log w1) = cache_hits (log w)
    /\ geocode_loop (length l) 0 l (LoopState (stored_cache w) ∅ false) w1
       = (Ok st2, w2)
    /\ geocode addresses w = (Ok (geocoded_addresses st2), w2).
Proof.
  intros Hacc Hfile Hw.
  destruct (load_cache_readable w Hfile)
    as (w1 & Hload & Hf1 & Hw1 & Hn1 & Hp1 & Hc1 & Hnow1 & Ht1).
  destruct (geocode_loop_total (length l) l 0
              (LoopState (stored_cache w) ∅ false) w1) as (st2 & w2 & Hrun);
    [congruence|].
  exists w1, st2, w2. repeat split; try done; try congruence.
  - revert Hload. py_cases; intros; simplify_eq; simpl;
      unfold cache_hits; rewrite omap_app; simpl; by rewrite app_nil_r.
  - unfold geocode. rewrite Hacc. unfold bind at 1. rewrite Hload.
    unfold bind, ret. by rewrite Hrun.
Qed.

(** X2.  [clean_cache] does nothing when there is no cache file.  When
    there is one (a cache or a damaged file) and it can be deleted,
    [clean_cache] deletes it without counting as a write; the next load
    then gives the new cache (version 1, an empty request log, no result)
    without creating the file, [geocode] returns normally on any list,
    tuple or set (also after a damaged file, on which it raised), and a
    second [clean_cache] changes nothing.  When there is one and it
    cannot be deleted, [clean_cache] raises and everything is as it
    was. *)
Theorem clean_cache_then_load (w : world) :
  (file w = Absent -> clean_cache w = (Ok tt, w))
  /\ (file w ≠ Absent -> writable w = true ->
      exists w1 w2,
        clean_cache w = (Ok tt, w1)
        /\ file w1 = Absent /\ nwrites w1 = nwrites w
        /\ calls w1 = calls w /\ log w1 = log w
        /\ _load_cache w1 = (Ok new_cache, w2)
        /\ file w2 = Absent /\ nwrites w2 = nwrites w
        /\ clean_cache w1 = (Ok tt, w1)
        /\ forall addresses l,
             accepted addresses = Some l ->
             exists out w3, geocode addresses w1 = (Ok out, w3))
  /\ (file w ≠ Absent -> writable w = false ->
      clean_cache w = (Raise OSError, w)).
Proof.
  split; [|split].
  - unfold clean_cache. by intros ->.
  - intros Hf Hw.
    assert (exists w1, clean_cache w = (Ok tt, w1)
                       /\ file w1 = Absent /\ nwrites w1 = nwrites w
                       /\ calls w1 = calls w /\ log w1 = log w
                       /\ writable w1 = true)
      as (w1 & Hclean & Hf1 & Hn1 & Hc1 & Hl1 & Hw1).
    { unfold clean_cache. rewrite Hw.
      destruct (file w) eqn:Hfile; [done| |]; eexists; repeat split; done. }
    assert (exists w2, _load_cache w1 = (Ok new_cache, w2)
                       /\ file w2 = Absent /\ nwrites w2 = nwrites w1)
      as (w2 & Hload & Hf2 & Hn2).
    { unfold _load_cache. rewrite Hf1. unfold bind, logger, ret. simpl.
      by eexists. }
    exists w1, w2. repeat split; try done; try congruence.
    + unfold clean_cache. by rewrite Hf1.
    + intros addresses l Hacc.
      assert (file w1 ≠ Corrupt) as Hne by congruence.
      destruct (geocode_run addresses l w1 Hacc Hne Hw1)
        as (_ & st2 & w3 & _ & _ & _ & _ & _ & _ & _ & _ & _ & _ & Hgeo).
      by eexists _, _.
  - intros Hf Hw. unfold clean_cache. rewrite Hw. by destruct (file w).
Qed.

(** The loop over a batch is the loop over a first part followed by the
    loop over the rest, the index going on. *)
Lemma geocode_loop_app n l1 l2 : forall i st w,
  geocode_loop n i (l1 ++ l2) st w =
    match geocode_loop n i l1 st w with
    | (Ok st1, w1) => geocode_loop n (i + length l1) l2 st1 w1
    | (Raise e, w1) => (Raise e, w1)
    end.
Proof.
  induction l1 as [|addr rest IH]; intros i st w.
  - simpl. unfold ret. by rewrite Nat.add_0_r.
  - rewrite <- app_comm_cons, !geocode_loop_cons.
    destruct (geocode_step n i addr st w) as [[st1|e] w1]; [|done].
    rewrite IH. simpl.
    by replace (i + S (length rest)) with (S (i + length rest)) by lia.
Qed.

(** One iteration keeps the cache in memory and the file in step: after
    it, either the flag is up or the file holds the cache in memory. *)
Lemma geocode_step_in_sync n i addr st w st1 w1 :
  geocode_step n i addr st w = (Ok st1, w1) ->
  in_sync st w ->
  in_sync st1 w1
  /\ (autosave_due n i = true ->
      fetched_res_since_last_cachewrite st1 = false).
Proof.
  intros Hstep Hsync.
  pose proof (geocode_step_autosave _ _ _ _ _ _ _ Hstep) as Hsave.
  cbv zeta in Hsave.
  destruct (fetched_res_since_last_cachewrite st) eqn:Hflag; simpl in Hsave.
  - destruct (autosave_due n i); simpl in Hsave.
    + destruct Hsave as (_ & Hf & Hfl). split; [|done].
      intros _. unfold stored_cache. by rewrite Hf.
    + destruct Hsave as (_ & _ & Hfl). split; [|done].
      intros Hfl'. congruence.
  - destruct (c_geocoding (cache_obj st) !! addr) as [r|] eqn:Hlook.
    + rewrite bool_decide_eq_false_2, andb_false_r in Hsave by done.
      destruct Hsave as (_ & Hf & Hfl). split; [|done].
      destruct (geocode_step_hit _ _ _ _ _ _ _ _ Hstep Hlook) as (Hc & _).
      intros _. rewrite Hc, (Hsync Hflag). unfold stored_cache. by rewrite Hf.
    + rewrite bool_decide_eq_true_2, andb_true_r in Hsave by done.
      destruct (autosave_due n i).
      * destruct Hsave as (_ & Hf & Hfl). split; [|done].
        intros _. unfold stored_cache. by rewrite Hf.
      * destruct Hsave as (_ & _ & Hfl). split; [|done].
        intros Hfl'. congruence.
Qed.

Lemma geocode_loop_in_sync n l i st w st2 w2 :
  geocode_loop n i l st w = (Ok st2, w2) ->
  in_sync st w ->
  in_sync st2 w2
  /\ (l ≠ [] -> autosave_due n (i + length l - 1) = true ->
      cache_obj st2 = stored_cache w2).
Proof.
  revert l i st w st2 w2. apply (geocode_loop_ok_ind n
    (fun i l st w st2 w2 =>
       in_sync st w ->
       in_sync st2 w2
       /\ (l ≠ [] -> autosave_due n (i + length l - 1) = true ->
           cache_obj st2 = stored_cache w2))); [done|].
  intros i addr rest st w st1 w1 st2 w2 Hstep Hrest IH Hsync.
  destruct (geocode_step_in_sync _ _ _ _ _ _ _ Hstep Hsync) as [Hsync1 Hdown].
  destruct (IH Hsync1) as [Hsync2 Hlast]. split; [done|].
  intros _ Hdue. destruct rest as [|addr' rest'].
  - simpl in Hrest. unfold ret in Hrest. simplify_eq.
    simpl in Hdue. replace (i + 1 - 1) with i in Hdue by lia.
    apply Hsync1. by apply Hdown.
  - apply Hlast; [done|]. rewrite <- Hdue. f_equal. simpl. lia.
Qed.

(** Only the iteration of an address changes its entry in the cache. *)
Lemma geocode_loop_cache_other n l i st w st2 w2 a :
  geocode_loop n i l st w = (Ok st2, w2) ->
  a ∉ l ->
  c_geocoding (cache_obj st2) !! a = c_geocoding (cache_obj st) !! a.
Proof.
  revert l i st w st2 w2. apply (geocode_loop_ok_ind n
    (fun i l st w st2 w2 =>
       a ∉ l ->
       c_geocoding (cache_obj st2) !! a = c_geocoding (cache_obj st) !! a));
    [done|].
  intros i addr rest st w st1 w1 st2 w2 Hstep _ IH [Hne Hn]%not_elem_of_cons.
  rewrite (IH Hn).
  destruct (c_geocoding (cache_obj st) !! addr) as [r|] eqn:Hlook.
  - by destruct (geocode_step_hit _ _ _ _ _ _ _ _ Hstep Hlook) as (-> & _).
  - destruct (geocode_step_miss _ _ _ _ _ _ _ Hstep Hlook) as (_ & Hc & _).
    by apply Hc.
Qed.

(** After its iteration, an address that has an entry in the cache has
    that entry in the result dict. *)
Lemma geocode_step_cached_answer n i addr st w st1 w1 r :
  geocode_step n i addr st w = (Ok st1, w1) ->
  c_geocoding (cache_obj st1) !! addr = Some r ->
  geocoded_addresses st1 !! addr = Some (Some r).
Proof.
  intros Hstep Hc.
  destruct (c_geocoding (cache_obj st) !! addr) as [r'|] eqn:Hlook.
  - destruct (geocode_step_hit _ _ _ _ _ _ _ _ Hstep Hlook) as (Hc' & Ho & _).
    rewrite Hc' in Hc. rewrite Ho, lookup_insert_eq. congruence.
  - destruct (c_requests (cache_obj st) !! "geocoding") as [stamps|] eqn:Hkey.
    + destruct (geocode_step_miss_call _ _ _ _ _ _ _ _ Hstep Hlook Hkey)
        as (_ & _ & _ & Hans).
      destruct (provider w (calls w) addr) as [[|m ms]|e];
        destruct Hans as [Ho Hc']; rewrite Hc' in Hc; try congruence.
      rewrite lookup_insert_eq in Hc. rewrite Ho, lookup_insert_eq. congruence.
    + destruct (geocode_step_miss_nolog _ _ _ _ _ _ _ Hstep Hlook Hkey)
        as (Hc' & _). rewrite Hc' in Hc. congruence.
Qed.

(** At the end of the loop the result dict and the cache agree on the
    addresses of the batch. *)
Lemma geocode_loop_output_cache n l i st w st2 w2 :
  geocode_loop n i l st w = (Ok st2, w2) ->
  forall a r, a ∈ l ->
    (c_geocoding (cache_obj st2) !! a = Some r ->
     geocoded_addresses st2 !! a = Some (Some r))
    /\ (geocoded_addresses st2 !! a = Some (Some r) -> r ≠ [] ->
        c_geocoding (cache_obj st2) !! a = Some r).
Proof.
  revert l i st w st2 w2. apply (geocode_loop_ok_ind n
    (fun i l st w st2 w2 =>
       forall a r, a ∈ l ->
         (c_geocoding (cache_obj st2) !! a = Some r ->
          geocoded_addresses st2 !! a = Some (Some r))
         /\ (geocoded_addresses st2 !! a = Some (Some r) -> r ≠ [] ->
             c_geocoding (cache_obj st2) !! a = Some r))).
  - intros i st w a r Hin. by apply elem_of_nil in Hin.
  - intros i addr rest st w st1 w1 st2 w2 Hstep Hrest IH a r Hin.
    destruct (decide (a ∈ rest)) as [|Hn]; [by apply IH|].
    apply elem_of_cons in Hin as [->|]; [|done].
    destruct (geocode_loop_output _ _ _ _ _ _ _ Hrest addr) as [_ Hout].
    rewrite (Hout Hn), (geocode_loop_cache_other _ _ _ _ _ _ _ _ Hrest Hn).
    split.
    + by apply (geocode_step_cached_answer n i addr st w st1 w1).
    + by apply (geocode_step_answer_cached n i addr st w st1 w1).
Qed.

(** A run of the loop leaves a readable file readable. *)
Lemma geocode_loop_file_readable n l i st w st2 w2 :
  geocode_loop n i l st w = (Ok st2, w2) ->
  file w ≠ Corrupt -> file w2 ≠ Corrupt.
Proof.
  revert l i st w st2 w2. apply (geocode_loop_ok_ind n
    (fun i l st w st2 w2 => file w ≠ Corrupt -> file w2 ≠ Corrupt)); [done|].
  intros i addr rest st w st1 w1 st2 w2 Hstep _ IH Hne. apply IH.
  destruct (geocode_step_file _ _ _ _ _ _ _ Hstep) as [-> | ->]; done.
Qed.

(** With a readable and writable cache file, [geocode] returns with the
    cache in memory on file, the result dict agreeing with it on the
    addresses of the batch. *)
Lemma geocode_loop_on_file (addresses : py_arg) (l : list string)
    (w : world) :
  accepted addresses = Some l ->
  file w ≠ Corrupt ->
  writable w = true ->
  exists out w',
    geocode addresses w = (Ok out, w')
    /\ file w' ≠ Corrupt /\ writable w' = true
    /\ calls w `prefix_of` calls w' /\ provider w' = provider w
    /\ forall a r, a ∈ l ->
         (c_geocoding (stored_cache w') !! a = Some r ->
          out !! a = Some (Some r))
         /\ (out !! a = Some (Some r) -> r ≠ [] ->
             c_geocoding (stored_cache w') !! a = Some r).
Proof.
  intros Hacc Hfile Hw.
  destruct (geocode_run addresses l w Hacc Hfile Hw)
    as (w1 & st2 & w2 & Hload & Hf1 & Hw1 & _ & _ & _ & _ & _ & _ & Hrun & Hgeo).
  assert (in_sync (LoopState (stored_cache w) ∅ false) w1) as Hsync.
  { intros _. simpl. unfold stored_cache. by rewrite Hf1. }
  destruct (geocode_loop_in_sync _ _ _ _ _ _ _ Hrun Hsync) as [Hsync2 Hlast].
  assert (file w2 ≠ Corrupt) as Hf2
    by (apply (geocode_loop_file_readable _ _ _ _ _ _ _ Hrun); congruence).
  assert (cache_obj st2 = stored_cache w2) as Heq.
  { destruct l as [|a0 l'].
    - simpl in Hrun. unfold ret in Hrun. simplify_eq. simpl.
      unfold stored_cache. by rewrite Hf1.
    - apply Hlast; [done|]. apply autosave_due_spec. right. simpl. lia. }
  pose proof (geocode_evolves addresses w) as Hev.
  rewrite Hgeo in Hev. simpl in Hev.
  exists (geocoded_addresses st2), w2. split; [done|]. split; [done|].
  split; [by rewrite (ev_writable _ _ Hev)|].
  split; [apply (ev_calls _ _ Hev)|]. split; [apply (ev_provider _ _ Hev)|].
  rewrite <- Heq. apply (geocode_loop_output_cache _ _ _ _ _ _ _ Hrun).
Qed.

(** X5.  With a readable and writable cache file, when [geocode] returns
    the file holds the cache as it is in memory, so that nothing fetched
    is left unwritten: for every address of the batch, an entry on file
    is the value returned for it, and a non-empty value returned for it
    is its entry on file. *)
Theorem geocode_result_on_file (addresses : py_arg) (l : list string)
    (w : world) :
  accepted addresses = Some l ->
  file w ≠ Corrupt ->
  writable w = true ->
  exists out w',
    geocode addresses w = (Ok out, w')
    /\ file w' ≠ Corrupt
    /\ forall a r, a ∈ l ->
         (c_geocoding (stored_cache w') !! a = Some r ->
          out !! a = Some (Some r))
         /\ (out !! a = Some (Some r) -> r ≠ [] ->
             c_geocoding (stored_cache w') !! a = Some r).
Proof.
  intros Hacc Hfile Hw.
  destruct (geocode_loop_on_file addresses l w Hacc Hfile Hw)
    as (out & w' & Hrun & Hf & _ & _ & _ & Hagree).
  by exists out, w'.
Qed.

Lemma geocode_result_on_file_witness :
  exists out w',
    geocode (PyList ["Oxford"; "offline"]) baker_world = (Ok out, w')
    /\ (out !! "Oxford" = Some (Some ["Oxford"]) ->
        c_geocoding (stored_cache w') !! "Oxford" = Some ["Oxford"]).
Proof.
  destruct (geocode_result_on_file (PyList ["Oxford"; "offline"])
              ["Oxford"; "offline"] baker_world)
    as (out & w' & Hrun & _ & Hagree); [reflexivity | discriminate | reflexivity |].
  exists out, w'. split; [exact Hrun|].
  intros Hout.
  destruct (Hagree "Oxford" ["Oxford"]) as [_ H];
    [apply elem_of_cons; left; reflexivity|].
  apply H; [exact Hout | discriminate].
Defined.

(** X6.  With a readable and writable cache file, cut the batch after an
    address whose position is a multiple of ten, or after the last one.
    When the loop has handled the first part, the file holds the cache
    exactly as it is in memory, and the call goes on from there with the
    second part: the loop never has more than nine addresses handled
    since the file and the cache in memory were last the same. *)
Theorem geocode_checkpoint (addresses : py_arg) (l1 l2 : list string)
    (w : world) :
  accepted addresses = Some (l1 ++ l2) ->
  file w ≠ Corrupt ->
  writable w = true ->
  length l1 mod 10 = 0 \/ l2 = [] ->
  exists st1 wm st2 w',
    geocode_loop (length (l1 ++ l2)) 0 l1
      (LoopState (stored_cache w) ∅ false) (_load_cache w).2 = (Ok st1, wm)
    /\ cache_obj st1 = stored_cache wm
    /\ file wm ≠ Corrupt
    /\ geocode_loop (length (l1 ++ l2)) (length l1) l2 st1 wm
       = (Ok st2, w')
    /\ geocode addresses w = (Ok (geocoded_addresses st2), w').
Proof.
  intros Hacc Hfile Hw Hcut.
  destruct (geocode_run addresses (l1 ++ l2) w Hacc Hfile Hw)
    as (w1 & st2 & w2 & Hload & Hf1 & Hw1 & _ & _ & _ & _ & _ & _ & Hrun & Hgeo).
  rewrite Hload. simpl.
  rewrite geocode_loop_app in Hrun.
  destruct (geocode_loop_total (length (l1 ++ l2)) l1 0
              (LoopState (stored_cache w) ∅ false) w1 Hw1) as (st1 & wm & Hfirst).
  rewrite Hfirst in Hrun. simpl in Hrun.
  assert (in_sync (LoopState (stored_cache w) ∅ false) w1) as Hsync.
  { intros _. simpl. unfold stored_cache. by rewrite Hf1. }
  destruct (geocode_loop_in_sync _ _ _ _ _ _ _ Hfirst Hsync) as [Hsync1 Hlast].
  exists st1, wm, st2, w2. split; [done|]. split; [|split; [|done]].
  - destruct l1 as [|a0 l1'].
    + simpl in Hfirst. unfold ret in Hfirst. simplify_eq. by apply Hsync.
    + apply Hlast; [done|]. apply autosave_due_spec.
      replace (0 + length (a0 :: l1') - 1) with (length l1')
        by (cbn [length]; lia).
      destruct Hcut as [Hten | ->].
      * left. exact Hten.
      * right. by rewrite app_nil_r.
  - apply (geocode_loop_file_readable _ _ _ _ _ _ _ Hfirst). congruence.
Qed.

Lemma geocode_checkpoint_witness :
  exists st1 wm st2 w',
    geocode_loop 11 0 (take 10 eleven)
      (LoopState new_cache ∅ false)
      (_load_cache (fresh_world sample_provider)).2 = (Ok st1, wm)
    /\ cache_obj st1 = stored_cache wm
    /\ geocode_loop 11 10 ["a10"] st1 wm = (Ok st2, w')
    /\ geocode (PyList eleven) (fresh_world sample_provider)
       = (Ok (geocoded_addresses st2), w').
Proof.
  destruct (geocode_checkpoint (PyList eleven) (take 10 eleven) ["a10"]
              (fresh_world sample_provider))
    as (st1 & wm & st2 & w' & Hfirst & Hsync & _ & Hrest & Hgeo);
    [reflexivity | discriminate | reflexivity | left; reflexivity |].
  exists st1, wm, st2, w'. repeat split; assumption.
Defined.

(* ===================================================================== *)
(** ** [geocode] never takes anything out of the cache *)
(* ===================================================================== *)

Lemma extends_cache_refl c : extends_cache c c.
Proof. by repeat split. Qed.

Lemma extends_cache_trans c1 c2 c3 :
  extends_cache c1 c2 -> extends_cache c2 c3 -> extends_cache c1 c3.
Proof.
  intros (Hv1 & Hg1 & Hr1) (Hv2 & Hg2 & Hr2).
  split; [congruence|]. split; by etrans.
Qed.

Lemma resolve_address_extends addr st w c v f wr :
  resolve_address addr st w = (Ok (c, v, f), wr) ->
  extends_cache (cache_obj st) c.
Proof.
  intros Hres.
  destruct (resolve_address_spec addr st w)
    as (c' & v' & f' & wr' & Hres' & _ & _ & _ & _ & _ & Hver & Hcase).
  rewrite Hres in Hres'. simplify_eq.
  destruct (c_geocoding (cache_obj st) !! addr) as [r|] eqn:Hlook.
  { destruct Hcase as (-> & _). apply extends_cache_refl. }
  destruct Hcase as (_ & _ & Hrq).
  destruct (c_requests (cache_obj st) !! "geocoding") as [stamps|] eqn:Hkey;
    [|destruct Hrq as (-> & _); apply extends_cache_refl].
  destruct Hrq as (_ & _ & Hreq & Hans).
  split; [done|]. split.
  - destruct (provider w (calls w) addr) as [[|m ms]|e];
      destruct Hans as [_ ->]; try done.
    by apply insert_subseteq.
  - unfold request_log. rewrite Hreq, Hkey, lookup_insert_eq. simpl.
    by apply prefix_app_r.
Qed.

Lemma geocode_step_extends n i addr st w c0 :
  extends_cache c0 (cache_obj st) ->
  extends_cache c0 (stored_cache w) ->
  extends_cache c0 (stored_cache (geocode_step n i addr st w).2)
  /\ forall st1, (geocode_step n i addr st w).1 = Ok st1 ->
       extends_cache c0 (cache_obj st1).
Proof.
  intros Hmem Hfile.
  destruct (resolve_address_spec addr st w)
    as (c & v & f & wr & Hres & Hf & _).
  rewrite (geocode_step_unfold n i addr st w c v f wr Hres). cbv zeta.
  pose proof (extends_cache_trans _ _ _ Hmem
                (resolve_address_extends _ _ _ _ _ _ _ Hres)) as Hc.
  assert (extends_cache c0 (stored_cache wr)) as Hfile'
    by (unfold stored_cache in *; by rewrite Hf).
  destruct (autosave_due n i && f); [destruct (writable wr)|]; simpl.
  - split; [done|]. by intros st1 [= <-].
  - split; [done|]. by intros st1 [=].
  - split; [done|]. by intros st1 [= <-].
Qed.

Lemma geocode_loop_extends n l c0 : forall i st w,
  extends_cache c0 (cache_obj st) ->
  extends_cache c0 (stored_cache w) ->
  extends_cache c0 (stored_cache (geocode_loop n i l st w).2).
Proof.
  induction l as [|addr rest IH]; intros i st w Hmem Hfile; [done|].
  rewrite geocode_loop_cons.
  destruct (geocode_step_extends n i addr st w c0 Hmem Hfile) as [Hfile1 Hmem1].
  destruct (geocode_step n i addr st w) as [[st1|e] w1]; simpl in *; [|done].
  apply IH; [by apply Hmem1 | done].
Qed.

(** X7.  With a cache file that can be written, whatever the argument
    of [geocode] and whether the call returns, rejects its argument or
    fails on a file that cannot be read: the cache on file afterwards has
    everything the cache on file had before, that is the same version,
    every entry of the result dict with its value unchanged, and the
    request log with at most new timestamps at its end. *)
Theorem geocode_keeps_cache (addresses : py_arg) (w : world) :
  writable w = true ->
  extends_cache (stored_cache w) (stored_cache (geocode addresses w).2).
Proof.
  intros _.
  destruct (geocode addresses w) as [res w'] eqn:Hrun. simpl.
  unfold geocode in Hrun.
  destruct (accepted addresses) as [l|];
    [|unfold raise in Hrun; simplify_eq; apply extends_cache_refl].
  unfold bind at 1 in Hrun.
  assert (file (_load_cache w).2 = file w) as Hf by (py_cases; done).
  assert (forall c, (_load_cache w).1 = Ok c -> c = stored_cache w) as Hc.
  { unfold stored_cache. py_cases; congruence. }
  destruct (_load_cache w) as [[c|e] w1]; simpl in *.
  - rewrite (Hc c eq_refl) in Hrun. unfold bind, ret in Hrun.
    assert (extends_cache (stored_cache w) (stored_cache w1)) as Hfile1.
    { unfold stored_cache. rewrite Hf. apply extends_cache_refl. }
    pose proof (geocode_loop_extends (length l) l (stored_cache w) 0
                  (LoopState (stored_cache w) ∅ false) w1
                  (extends_cache_refl _) Hfile1) as H.
    destruct (geocode_loop _ _ _ _ _) as [[st|e] w2]; simpl in *;
      by simplify_eq.
  - simplify_eq. unfold stored_cache. rewrite Hf. apply extends_cache_refl.
Qed.

Lemma geocode_keeps_cache_witness :
  extends_cache baker_cache
    (stored_cache (geocode (PyList ["Oxford"; "offline"]) baker_world).2).
Proof.
  apply (geocode_keeps_cache (PyList ["Oxford"; "offline"]) baker_world).
  reflexivity.
Defined.

(* ===================================================================== *)
(** ** Batches that need no provider *)
(* ===================================================================== *)

(** A cache hit with the flag down: the iteration cannot raise, whether
    the file is writable or not, and touches only the log. *)
Lemma geocode_step_hit_clean n i addr st w r :
  c_geocoding (cache_obj st) !! addr = Some r ->
  fetched_res_since_last_cachewrite st = false ->
  exists w1,
    geocode_step n i addr st w
      = (Ok (LoopState (cache_obj st)
               (<[addr := Some r]> (geocoded_addresses st)) false), w1)
    /\ file w1 = file w /\ nwrites w1 = nwrites w
    /\ calls w1 = calls w /\ ticks w1 = ticks w
    /\ writable w1 = writable w.
Proof.
  intros Hlook Hflag.
  destruct (resolve_address_spec addr st w)
    as (c & v & f & wr & Hres & Hf & Hn & Hw & _ & _ & _ & Hcase).
  rewrite (geocode_step_unfold n i addr st w c v f wr Hres). cbv zeta.
  rewrite Hlook in Hcase. destruct Hcase as (-> & -> & -> & Hc & Ht & _).
  rewrite Hflag, andb_false_r. by exists wr.
Qed.

Lemma geocode_loop_all_cached n l : forall i st w,
  fetched_res_since_last_cachewrite st = false ->
  (forall a, a ∈ l -> is_Some (c_geocoding (cache_obj st) !! a)) ->
  exists st2 w2,
    geocode_loop n i l st w = (Ok st2, w2)
    /\ cache_obj st2 = cache_obj st
    /\ file w2 = file w /\ nwrites w2 = nwrites w
    /\ calls w2 = calls w /\ ticks w2 = ticks w.
Proof.
  induction l as [|addr rest IH]; intros i st w Hflag Hall.
  - by eexists _, _.
  - destruct (Hall addr) as [r Hlook]; [by left|].
    destruct (geocode_step_hit_clean n i addr st w r Hlook Hflag)
      as (w1 & Hstep & Hf & Hn & Hc & Ht & _).
    rewrite geocode_loop_cons, Hstep.
    destruct (IH (S i) (LoopState (cache_obj st)
                (<[addr := Some r]> (geocoded_addresses st)) false) w1)
      as (st2 & w2 & Hrun & Hc2 & Hf2 & Hn2 & Hcalls2 & Ht2); [done| |].
    { intros a Ha. apply Hall. by right. }
    exists st2, w2. repeat split; try done; congruence.
Qed.

(** X8.  When the cache file holds an entry for every address of the
    batch, [geocode] returns the entries on file without calling the
    provider, reading the clock or writing; this needs neither a provider
    that answers nor a writable file. *)
Theorem geocode_all_cached (addresses : py_arg) (l : list string)
    (c : cache_dict) (w : world) :
  accepted addresses = Some l ->
  file w = Pickled c ->
  (forall a, a ∈ l -> is_Some (c_geocoding c !! a)) ->
  exists out w',
    geocode addresses w = (Ok out, w')
    /\ calls w' = calls w /\ ticks w' = ticks w
    /\ nwrites w' = nwrites w /\ file w' = file w
    /\ forall a, a ∈ l -> out !! a = Some (c_geocoding c !! a).
Proof.
  intros Hacc Hfile Hall.
  assert (file w ≠ Corrupt) as Hne by congruence.
  destruct (load_cache_readable w Hne)
    as (w1 & Hload & Hf1 & _ & Hn1 & _ & Hc1 & _ & Ht1).
  assert (stored_cache w = c) as Hc by (unfold stored_cache; by rewrite Hfile).
  rewrite Hc in Hload.
  destruct (geocode_loop_all_cached (length l) l 0 (LoopState c ∅ false) w1)
    as (st2 & w2 & Hrun & Hcache & Hf2 & Hn2 & Hcalls2 & Ht2); [done|done|].
  exists (geocoded_addresses st2), w2. split.
  - unfold geocode. rewrite Hacc. unfold bind at 1. rewrite Hload.
    unfold bind, ret. by rewrite Hrun.
  - repeat split; try congruence.
    intros a Ha. destruct (Hall a Ha) as [r Hr].
    destruct (geocode_loop_cached _ _ _ _ _ _ _ a r Hrun Hr) as (_ & _ & _ & Hout).
    by rewrite (Hout Ha), Hr.
Qed.

Lemma geocode_all_cached_witness :
  exists out w',
    geocode (PySet ["Reichpietschufer 50, Berlin"; "221B Baker Street, London"])
      readonly_world = (Ok out, w')
    /\ calls w' = [] /\ nwrites w' = 0
    /\ out !! "221B Baker Street, London" = Some (Some ["NW1 6XE"]).
Proof.
  destruct (geocode_all_cached
              (PySet ["Reichpietschufer 50, Berlin"; "221B Baker Street, London"])
              ["Reichpietschufer 50, Berlin"; "221B Baker Street, London"]
              baker_cache readonly_world)
    as (out & w' & Hrun & Hc & _ & Hn & _ & Hout); [reflexivity | reflexivity | |].
  - intros a Ha.
    apply elem_of_cons in Ha as [-> | Ha]; [eexists; reflexivity|].
    apply elem_of_cons in Ha as [-> | Ha]; [eexists; reflexivity|].
    apply elem_of_nil in Ha. destruct Ha.
  - exists out, w'. repeat split; try assumption.
    apply (Hout "221B Baker Street, London").
    apply elem_of_cons. right. apply elem_of_cons. left. reflexivity.
Defined.

(* ===================================================================== *)
(** ** A cache file that cannot be written *)
(* ===================================================================== *)

(** With the flag up and no way to write, the loop raises at the next
    autosave, which comes with the last address at the latest. *)
Lemma geocode_loop_unwritable_dirty n l : forall i st w,
  writable w = false ->
  fetched_res_since_last_cachewrite st = true ->
  l ≠ [] ->
  i + length l = n ->
  exists w2,
    geocode_loop n i l st w = (Raise OSError, w2)
    /\ file w2 = file w /\ nwrites w2 = nwrites w.
Proof.
  induction l as [|addr rest IH]; intros i st w Hw Hflag Hne Hlen; [done|].
  rewrite geocode_loop_cons.
  destruct (resolve_address_spec addr st w)
    as (c & v & f & wr & Hres & Hf & Hn & Hwr & _ & _ & _ & Hcase).
  rewrite (geocode_step_unfold n i addr st w c v f wr Hres). cbv zeta.
  assert (f = true) as ->.
  { destruct (c_geocoding (cache_obj st) !! addr).
    - destruct Hcase as (_ & _ & -> & _). done.
    - by destruct Hcase as (-> & _). }
  rewrite andb_true_r. rewrite Hwr, Hw.
  destruct (autosave_due n i) eqn:Hdue; [by exists wr|].
  assert (rest ≠ []) as Hrest.
  { intros ->. simpl in Hlen.
    assert (autosave_due n i = true) by (apply autosave_due_spec; lia).
    congruence. }
  destruct (IH (S i) (LoopState c (<[addr := v]> (geocoded_addresses st)) true) wr)
    as (w2 & Hrun & Hf2 & Hn2); try done; [congruence | simpl in Hlen; lia |].
  exists w2. repeat split; congruence.
Qed.

Lemma geocode_loop_unwritable n l : forall i st w,
  writable w = false ->
  fetched_res_since_last_cachewrite st = false ->
  i + length l = n ->
  (exists a, a ∈ l /\ c_geocoding (cache_obj st) !! a = None) ->
  exists w2,
    geocode_loop n i l st w = (Raise OSError, w2)
    /\ file w2 = file w /\ nwrites w2 = nwrites w.
Proof.
  induction l as [|addr rest IH]; intros i st w Hw Hflag Hlen (a & Ha & Hnone).
  { by apply elem_of_nil in Ha. }
  destruct (c_geocoding (cache_obj st) !! addr) as [r|] eqn:Hlook.
  - destruct (geocode_step_hit_clean n i addr st w r Hlook Hflag)
      as (w1 & Hstep & Hf & Hn & _ & _ & Hw1).
    rewrite geocode_loop_cons, Hstep.
    destruct (IH (S i) (LoopState (cache_obj st)
                (<[addr := Some r]> (geocoded_addresses st)) false) w1)
      as (w2 & Hrun & Hf2 & Hn2); try done; [congruence | simpl in Hlen; lia | |].
    { exists a. split; [|done].
      apply elem_of_cons in Ha as [->|]; [congruence|done]. }
    exists w2. repeat split; congruence.
  - rewrite geocode_loop_cons.
    destruct (resolve_address_spec addr st w)
      as (c & v & f & wr & Hres & Hf & Hn & Hwr & _ & _ & _ & Hcase).
    rewrite (geocode_step_unfold n i addr st w c v f wr Hres). cbv zeta.
    rewrite Hlook in Hcase. destruct Hcase as (-> & _).
    rewrite andb_true_r, Hwr, Hw.
    destruct (autosave_due n i) eqn:Hdue; [by exists wr|].
    assert (rest ≠ []) as Hrest.
    { intros ->. simpl in Hlen.
      assert (autosave_due n i = true) by (apply autosave_due_spec; lia).
      congruence. }
    destruct (geocode_loop_unwritable_dirty n rest (S i)
                (LoopState c (<[addr := v]> (geocoded_addresses st)) true) wr)
      as (w2 & Hrun & Hf2 & Hn2); try done; [congruence | simpl in Hlen; lia |].
    exists w2. repeat split; congruence.
Qed.

(** X9.  With a readable cache file that cannot be opened for writing, a
    batch with at least one address that has no entry on file makes
    [geocode] raise the error of the write, and [remove_item_from_cache]
    raises it for the sections ['geocoding'] and ['_requests'] whatever
    the item; the file is left as it was, so what was fetched in that
    call is lost. *)
Theorem unwritable_file_raises (addresses : py_arg) (l : list string)
    (a item_id : string) (w : world) :
  accepted addresses = Some l ->
  file w ≠ Corrupt ->
  writable w = false ->
  a ∈ l ->
  c_geocoding (stored_cache w) !! a = None ->
  (exists w',
     geocode addresses w = (Raise OSError, w')
     /\ file w' = file w /\ nwrites w' = nwrites w)
  /\ (exists w',
       remove_item_from_cache item_id "geocoding" w = (Raise OSError, w')
       /\ file w' = file w /\ nwrites w' = nwrites w)
  /\ (exists w',
       remove_item_from_cache item_id "_requests" w = (Raise OSError, w')
       /\ file w' = file w /\ nwrites w' = nwrites w).
Proof.
  intros Hacc Hfile Hw Ha Hnone. split; [|split].
  - destruct (load_cache_readable w Hfile)
      as (w1 & Hload & Hf1 & Hw1 & Hn1 & _).
    destruct (geocode_loop_unwritable (length l) l 0
                (LoopState (stored_cache w) ∅ false) w1)
      as (w2 & Hrun & Hf2 & Hn2); try done; [congruence | by exists a |].
    exists w2. split; [|split; congruence].
    unfold geocode. rewrite Hacc. unfold bind at 1. rewrite Hload.
    unfold bind. by rewrite Hrun.
  - clear Ha Hnone. py_cases; eexists; repeat split; done.
  - clear Ha Hnone. py_cases; eexists; repeat split; done.
Qed.

Lemma unwritable_file_raises_witness :
  exists w',
    geocode (PyList ["221B Baker Street, London"; "Oxford"]) readonly_world
      = (Raise OSError, w')
    /\ file w' = Pickled baker_cache /\ nwrites w' = 0.
Proof.
  destruct (unwritable_file_raises
              (PyList ["221B Baker Street, London"; "Oxford"])
              ["221B Baker Street, London"; "Oxford"] "Oxford" "Oxford"
              readonly_world)
    as [(w' & Hrun & Hf & Hn) _];
    [reflexivity | discriminate | reflexivity | | reflexivity |].
  - apply elem_of_cons. right. apply elem_of_cons. left. reflexivity.
  - exists w'. repeat split; assumption.
Defined.

(* ===================================================================== *)
(** ** Addresses that are not in the cache *)
(* ===================================================================== *)

Lemma occurrences_evolves a w w' :
  evolves w w' -> occurrences a (calls w) <= occurrences a (calls w').
Proof.
  intros Hev. destruct (ev_calls _ _ Hev) as [more ->].
  rewrite occurrences_app. lia.
Qed.

(** An iteration keeps the request log under ['geocoding'] in place. *)
Lemma geocode_step_keeps_request_log n i addr st w st1 w1 :
  geocode_step n i addr st w = (Ok st1, w1) ->
  is_Some (c_requests (cache_obj st) !! "geocoding") ->
  is_Some (c_requests (cache_obj st1) !! "geocoding").
Proof.
  intros Hstep [stamps Hkey].
  destruct (c_geocoding (cache_obj st) !! addr) as [r|] eqn:Hlook.
  - destruct (geocode_step_hit _ _ _ _ _ _ _ _ Hstep Hlook) as (-> & _).
    by eexists.
  - destruct (geocode_step_miss_call _ _ _ _ _ _ _ _ Hstep Hlook Hkey)
      as (_ & _ & -> & _).
    rewrite lookup_insert_eq. by eexists.
Qed.

(** An address of the batch that is not in the cache is sent to the
    provider. *)
Lemma geocode_loop_uncached_called n l i st w st2 w2 a :
  geocode_loop n i l st w = (Ok st2, w2) ->
  c_geocoding (cache_obj st) !! a = None ->
  is_Some (c_requests (cache_obj st) !! "geocoding") ->
  a ∈ l ->
  occurrences a (calls w) < occurrences a (calls w2).
Proof.
  revert l i st w st2 w2. apply (geocode_loop_ok_ind n
    (fun i l st w st2 w2 =>
       c_geocoding (cache_obj st) !! a = None ->
       is_Some (c_requests (cache_obj st) !! "geocoding") ->
       a ∈ l ->
       occurrences a (calls w) < occurrences a (calls w2))).
  - intros i st w _ _ Hin. by apply elem_of_nil in Hin.
  - intros i addr rest st w st1 w1 st2 w2 Hstep Hrest IH Hnone Hkey Hin.
    pose proof (geocode_loop_evolves n rest (S i) st1 w1) as Hev2.
    rewrite Hrest in Hev2. simpl in Hev2.
    pose proof (geocode_step_evolves n i addr st w) as Hev1.
    rewrite Hstep in Hev1. simpl in Hev1.
    pose proof (occurrences_evolves a _ _ Hev1).
    pose proof (occurrences_evolves a _ _ Hev2).
    destruct (decide (addr = a)) as [->|Hne].
    + destruct Hkey as [stamps Hkey].
      destruct (geocode_step_miss_call _ _ _ _ _ _ _ _ Hstep Hnone Hkey)
        as (Hcalls & _).
      rewrite Hcalls, occurrences_snoc, decide_True in * by done. lia.
    + apply elem_of_cons in Hin as [->|Hin]; [done|].
      assert (c_geocoding (cache_obj st1) !! a = None) as Hnone1.
      { destruct (c_geocoding (cache_obj st) !! addr) as [r|] eqn:Hlook.
        - by destruct (geocode_step_hit _ _ _ _ _ _ _ _ Hstep Hlook) as (-> & _).
        - destruct (geocode_step_miss _ _ _ _ _ _ _ Hstep Hlook) as (_ & Hc & _).
          rewrite Hc; done. }
      pose proof (geocode_step_keeps_request_log _ _ _ _ _ _ _ Hstep Hkey)
        as Hkey1.
      specialize (IH Hnone1 Hkey1 Hin). lia.
Qed.

Lemma geocode_uncached_called (addresses : py_arg) (l : list string)
    (a : string) (w : world) :
  accepted addresses = Some l ->
  file w ≠ Corrupt ->
  writable w = true ->
  is_Some (c_requests (stored_cache w) !! "geocoding") ->
  a ∈ l ->
  c_geocoding (stored_cache w) !! a = None ->
  exists out w',
    geocode addresses w = (Ok out, w')
    /\ occurrences a (calls w) < occurrences a (calls w').
Proof.
  intros Hacc Hfile Hw Hkey Ha Hnone.
  destruct (geocode_run addresses l w Hacc Hfile Hw)
    as (w1 & st2 & w2 & _ & _ & _ & _ & _ & Hc1 & _ & _ & _ & Hrun & Hgeo).
  exists (geocoded_addresses st2), w2. split; [done|].
  rewrite <- Hc1.
  by apply (geocode_loop_uncached_called _ _ _ _ _ _ _ a Hrun).
Qed.

(** X10.  With a readable and writable cache file that holds a request
    log, an address of the batch that has no entry on file is sent to the
    provider during the call. *)
Theorem geocode_uncached_is_requested (addresses : py_arg) (l : list string)
    (a : string) (w : world) :
  accepted addresses = Some l ->
  file w ≠ Corrupt ->
  writable w = true ->
  is_Some (c_requests (stored_cache w) !! "geocoding") ->
  a ∈ l ->
  c_geocoding (stored_cache w) !! a = None ->
  exists out w',
    geocode addresses w = (Ok out, w')
    /\ occurrences a (calls w) < occurrences a (calls w').
Proof.
  intros Hacc Hfile Hw Hkey Ha Hnone.
  destruct (geocode_run addresses l w Hacc Hfile Hw)
    as (w1 & st2 & w2 & Hload & _ & _ & _ & _ & Hc1 & _ & _ & _ & Hrun & Hgeo).
  exists (geocoded_addresses st2), w2. split; [exact Hgeo|].
  rewrite <- Hc1.
  apply (geocode_loop_uncached_called _ _ _ _ _ _ _ a Hrun); simpl; done.
Qed.

Lemma geocode_uncached_is_requested_witness :
  exists out w',
    geocode (PyTuple ["offline"]) baker_world = (Ok out, w')
    /\ occurrences "offline" (calls baker_world) < occurrences "offline" (calls w').
Proof.
  apply (geocode_uncached_is_requested (PyTuple ["offline"]) ["offline"]
           "offline" baker_world);
    [reflexivity | discriminate | reflexivity | eexists; reflexivity
    | apply elem_of_cons; left; reflexivity | reflexivity].
Defined.

(** What [remove_item_from_cache] leaves, for the two sections that are
    dicts. *)
Lemma remove_item_from_cache_file (item_id : string) (w : world) :
  file w ≠ Corrupt ->
  writable w = true ->
  (exists w',
     remove_item_from_cache item_id "geocoding" w = (Ok tt, w')
     /\ file w' = Pickled (set_geocoding (stored_cache w)
                             (delete item_id (c_geocoding (stored_cache w))))
     /\ calls w' = calls w /\ writable w' = true)
  /\ (exists w',
       remove_item_from_cache item_id "_requests" w = (Ok tt, w')
       /\ file w' = Pickled (set_requests (stored_cache w)
                               (delete item_id (c_requests (stored_cache w))))
       /\ calls w' = calls w /\ writable w' = true).
Proof.
  intros Hf Hw. unfold stored_cache. split.
  - destruct (file w) as [|c|] eqn:E; [| |done]; py_cases;
      try (eexists; repeat split; simpl; done).
    match goal with H : ¬ is_Some _ |- _ =>
      pose proof (proj2 (eq_None_not_Some _) H) as Hnone end.
    eexists; repeat split; simpl; try done.
    rewrite delete_id by done. by destruct c.
  - destruct (file w) as [|c|] eqn:E; [| |done]; py_cases;
      try (eexists; repeat split; simpl; done);
      match goal with H : ¬ is_Some _ |- _ =>
        pose proof (proj2 (eq_None_not_Some _) H) as Hnone end;
      eexists; repeat split; simpl; try done;
      rewrite delete_id by done; try by destruct c. done.
Qed.

(** X11.  With a readable and writable cache file that holds a request
    log: after [remove_item_from_cache] of an address, a [geocode] call
    with that address in its batch sends it to the provider, whether it
    had an entry before or not. *)
Theorem remove_item_then_geocode (addresses : py_arg) (l : list string)
    (a : string) (w : world) :
  accepted addresses = Some l ->
  file w ≠ Corrupt ->
  writable w = true ->
  is_Some (c_requests (stored_cache w) !! "geocoding") ->
  a ∈ l ->
  exists w1 out w2,
    remove_item_from_cache a "geocoding" w = (Ok tt, w1)
    /\ geocode addresses w1 = (Ok out, w2)
    /\ occurrences a (calls w) < occurrences a (calls w2).
Proof.
  intros Hacc Hfile Hw Hkey Ha.
  destruct (remove_item_from_cache_file a w Hfile Hw)
    as [(w1 & Hrm & Hf1 & Hc1 & Hw1) _].
  assert (stored_cache w1 = set_geocoding (stored_cache w)
            (delete a (c_geocoding (stored_cache w)))) as Hs
    by (unfold stored_cache at 1; by rewrite Hf1).
  destruct (geocode_uncached_called addresses l a w1) as (out & w2 & Hgeo & Hlt);
    try done.
  - by rewrite Hf1.
  - by rewrite Hs.
  - rewrite Hs. simpl. by rewrite lookup_delete_eq.
  - exists w1, out, w2. by rewrite <- Hc1.
Qed.

Lemma remove_item_then_geocode_witness :
  exists w1 out w2,
    remove_item_from_cache "221B Baker Street, London" "geocoding" baker_world
      = (Ok tt, w1)
    /\ geocode (PyList ["221B Baker Street, London"]) w1 = (Ok out, w2)
    /\ occurrences "221B Baker Street, London" (calls baker_world)
       < occurrences "221B Baker Street, London" (calls w2).
Proof.
  apply (remove_item_then_geocode (PyList ["221B Baker Street, London"])
           ["221B Baker Street, London"] "221B Baker Street, London" baker_world);
    [reflexivity | discriminate | reflexivity | eexists; reflexivity
    | apply elem_of_cons; left; reflexivity].
Defined.

(** X12.  With a writable place for the cache file: after [clean_cache],
    whatever was there before, a [geocode] call sends every address of
    its batch to the provider. *)
Theorem clean_cache_then_geocode (addresses : py_arg) (l : list string)
    (a : string) (w : world) :
  accepted addresses = Some l ->
  writable w = true ->
  a ∈ l ->
  exists w1 out w2,
    clean_cache w = (Ok tt, w1)
    /\ geocode addresses w1 = (Ok out, w2)
    /\ occurrences a (calls w) < occurrences a (calls w2).
Proof.
  intros Hacc Hw Ha.
  assert (exists w1, clean_cache w = (Ok tt, w1) /\ file w1 = Absent
                     /\ calls w1 = calls w /\ writable w1 = true)
    as (w1 & Hclean & Hf1 & Hc1 & Hw1).
  { unfold clean_cache. rewrite Hw.
    destruct (file w) eqn:Hf; eexists; repeat split; done. }
  destruct (geocode_uncached_called addresses l a w1) as (out & w2 & Hgeo & Hlt);
    try done.
  - by rewrite Hf1.
  - unfold stored_cache. rewrite Hf1. by eexists.
  - unfold stored_cache. by rewrite Hf1.
  - exists w1, out, w2. by rewrite <- Hc1.
Qed.

Lemma clean_cache_then_geocode_witness :
  exists w1 out w2,
    clean_cache baker_world = (Ok tt, w1)
    /\ geocode (PyList ["221B Baker Street, London"]) w1 = (Ok out, w2)
    /\ occurrences "221B Baker Street, London" (calls baker_world)
       < occurrences "221B Baker Street, London" (calls w2).
Proof.
  apply (clean_cache_then_geocode (PyList ["221B Baker Street, London"])
           ["221B Baker Street, London"] "221B Baker Street, London" baker_world);
    [reflexivity | reflexivity | apply elem_of_cons; left; reflexivity].
Defined.

(* ===================================================================== *)
(** ** A cache without its request log *)
(* ===================================================================== *)

(** Without a request log under ['geocoding'] the loop neither changes
    the cache nor reaches the provider, and reports for each address what
    the cache has for it, [None] when it has nothing. *)
Lemma geocode_loop_no_request_log n l i st w st2 w2 :
  geocode_loop n i l st w = (Ok st2, w2) ->
  c_requests (cache_obj st) !! "geocoding" = None ->
  cache_obj st2 = cache_obj st
  /\ calls w2 = calls w /\ ticks w2 = ticks w
  /\ forall a, a ∈ l ->
       geocoded_addresses st2 !! a = Some (c_geocoding (cache_obj st) !! a).
Proof.
  revert l i st w st2 w2. apply (geocode_loop_ok_ind n
    (fun i l st w st2 w2 =>
       c_requests (cache_obj st) !! "geocoding" = None ->
       cache_obj st2 = cache_obj st
       /\ calls w2 = calls w /\ ticks w2 = ticks w
       /\ forall a, a ∈ l ->
            geocoded_addresses st2 !! a = Some (c_geocoding (cache_obj st) !! a))).
  - intros i st w _. repeat split; try done.
    intros a Hin. by apply elem_of_nil in Hin.
  - intros i addr rest st w st1 w1 st2 w2 Hstep Hrest IH Hkey.
    assert (cache_obj st1 = cache_obj st /\ calls w1 = calls w
            /\ ticks w1 = ticks w
            /\ geocoded_addresses st1 !! addr
               = Some (c_geocoding (cache_obj st) !! addr))
      as (Hc1 & Hcalls1 & Ht1 & Hout1).
    { destruct (c_geocoding (cache_obj st) !! addr) as [r|] eqn:Hlook.
      - destruct (geocode_step_hit _ _ _ _ _ _ _ _ Hstep Hlook)
          as (? & -> & ? & ? & _). by rewrite lookup_insert_eq.
      - destruct (geocode_step_miss_nolog _ _ _ _ _ _ _ Hstep Hlook Hkey)
          as (? & -> & ? & ?). by rewrite lookup_insert_eq. }
    destruct IH as (IHc & IHcalls & IHt & IHout); [by rewrite Hc1|].
    split; [congruence|]. split; [congruence|]. split; [congruence|].
    intros a Hin. destruct (decide (a ∈ rest)) as [Hr|Hn].
    + rewrite (IHout a Hr). by rewrite Hc1.
    + apply elem_of_cons in Hin as [->|]; [|done].
      destruct (geocode_loop_output _ _ _ _ _ _ _ Hrest addr) as [_ Hkeep].
      by rewrite (Hkeep Hn).
Qed.

(** X13.  With a readable and writable cache file whose request dict has
    no log under ['geocoding'], [geocode] never reaches the provider: the
    subscript raises inside the [try] block and the handler takes it for
    a failed request.  The call returns, for every address of the batch,
    the entry on file or [None] when there is none; the clock is not
    read and the cache on file is the same afterwards. *)
Theorem geocode_without_request_log (addresses : py_arg) (l : list string)
    (w : world) :
  accepted addresses = Some l ->
  file w ≠ Corrupt ->
  writable w = true ->
  c_requests (stored_cache w) !! "geocoding" = None ->
  exists out w',
    geocode addresses w = (Ok out, w')
    /\ calls w' = calls w /\ ticks w' = ticks w
    /\ stored_cache w' = stored_cache w
    /\ forall a, a ∈ l -> out !! a = Some (c_geocoding (stored_cache w) !! a).
Proof.
  intros Hacc Hfile Hw Hkey.
  destruct (geocode_run addresses l w Hacc Hfile Hw)
    as (w1 & st2 & w2 & Hload & Hf1 & _ & _ & _ & Hc1 & _ & Ht1 & _ & Hrun & Hgeo).
  destruct (geocode_loop_no_request_log _ _ _ _ _ _ _ Hrun Hkey)
    as (Hcache & Hcalls & Hticks & Hout).
  assert (in_sync (LoopState (stored_cache w) ∅ false) w1) as Hsync.
  { intros _. simpl. unfold stored_cache. by rewrite Hf1. }
  destruct (geocode_loop_in_sync _ _ _ _ _ _ _ Hrun Hsync) as [_ Hlast].
  exists (geocoded_addresses st2), w2. split; [done|].
  split; [congruence|]. split; [congruence|]. split; [|exact Hout].
  destruct l as [|a0 l'].
  - simpl in Hrun. unfold ret in Hrun. simplify_eq.
    unfold stored_cache. by rewrite Hf1.
  - rewrite <- Hlast; [done|done|].
    apply autosave_due_spec. right. simpl. lia.
Qed.

Lemma geocode_without_request_log_witness :
  exists out w',
    geocode (PyList ["Oxford"; "221B Baker Street, London"]) nolog_world
      = (Ok out, w')
    /\ calls w' = []
    /\ out !! "Oxford" = Some None
    /\ out !! "221B Baker Street, London" = Some (Some ["NW1 6XE"]).
Proof.
  destruct (geocode_without_request_log
              (PyList ["Oxford"; "221B Baker Street, London"])
              ["Oxford"; "221B Baker Street, London"] nolog_world)
    as (out & w' & Hrun & Hc & _ & _ & Hout);
    [reflexivity | discriminate | reflexivity | reflexivity |].
  exists out, w'. split; [exact Hrun|]. split; [exact Hc|]. split.
  - apply (Hout "Oxford"). apply elem_of_cons. left. reflexivity.
  - apply (Hout "221B Baker Street, London").
    apply elem_of_cons. right. apply elem_of_cons. left. reflexivity.
Defined.

(** X14.  With a readable and writable cache file,
    [remove_item_from_cache('geocoding', section='_requests')] deletes the
    request log and leaves the version and the result dict as they were;
    a [geocode] call after it does not call the provider and returns
    [None] for every address of its batch that has no entry on file. *)
Theorem remove_request_log_then_geocode (addresses : py_arg)
    (l : list string) (w : world) :
  accepted addresses = Some l ->
  file w ≠ Corrupt ->
  writable w = true ->
  exists w1 out w2,
    remove_item_from_cache "geocoding" "_requests" w = (Ok tt, w1)
    /\ c_version (stored_cache w1) = c_version (stored_cache w)
    /\ c_geocoding (stored_cache w1) = c_geocoding (stored_cache w)
    /\ c_requests (stored_cache w1) !! "geocoding" = None
    /\ geocode addresses w1 = (Ok out, w2)
    /\ calls w2 = calls w
    /\ forall a, a ∈ l -> out !! a = Some (c_geocoding (stored_cache w) !! a).
Proof.
  intros Hacc Hfile Hw.
  destruct (remove_item_from_cache_file "geocoding" w Hfile Hw)
    as [_ (w1 & Hrm & Hf1 & Hc1 & Hw1)].
  assert (stored_cache w1 = set_requests (stored_cache w)
            (delete "geocoding" (c_requests (stored_cache w)))) as Hs
    by (unfold stored_cache at 1; by rewrite Hf1).
  assert (file w1 ≠ Corrupt) as Hne by (by rewrite Hf1).
  assert (c_requests (stored_cache w1) !! "geocoding" = None) as Hkey
    by (rewrite Hs; simpl; by rewrite lookup_delete_eq).
  destruct (geocode_run addresses l w1 Hacc Hne Hw1)
    as (w1' & st2 & w2 & _ & _ & _ & _ & _ & Hc1' & _ & _ & _ & Hrun & Hgeo).
  destruct (geocode_loop_no_request_log _ _ _ _ _ _ _ Hrun Hkey)
    as (_ & Hcalls & _ & Hout).
  exists w1, (geocoded_addresses st2), w2.
  split; [done|]. rewrite Hs at 1 2. simpl.
  split; [done|]. split; [done|]. split; [done|]. split; [done|].
  split; [congruence|].
  intros a Ha. rewrite (Hout a Ha). simpl. by rewrite Hs.
Qed.

Lemma remove_request_log_then_geocode_witness :
  exists w1 out w2,
    remove_item_from_cache "geocoding" "_requests" baker_world = (Ok tt, w1)
    /\ geocode (PyList ["Oxford"]) w1 = (Ok out, w2)
    /\ calls w2 = []
    /\ out !! "Oxford" = Some None.
Proof.
  destruct (remove_request_log_then_geocode (PyList ["Oxford"]) ["Oxford"]
              baker_world)
    as (w1 & out & w2 & Hrm & _ & _ & _ & Hgeo & Hc & Hout);
    [reflexivity | discriminate | reflexivity |].
  exists w1, out, w2. repeat split; try assumption.
  apply (Hout "Oxford"). apply elem_of_cons. left. reflexivity.
Defined.

(* ===================================================================== *)
(** ** Asking again *)
(* ===================================================================== *)

(** X15.  With a readable and writable cache file, run [geocode] on one
    batch and then on another.  An address for which the first call
    returned a non-empty value is not sent to the provider by the second
    call, and the second call returns the same value for it when its
    batch has the address. *)
Theorem geocode_again (first second : py_arg) (l1 l2 : list string)
    (w : world) :
  accepted first = Some l1 ->
  accepted second = Some l2 ->
  file w ≠ Corrupt ->
  writable w = true ->
  exists out1 w1 out2 w2,
    geocode first w = (Ok out1, w1)
    /\ geocode second w1 = (Ok out2, w2)
    /\ forall a r,
         a ∈ l1 -> out1 !! a = Some (Some r) -> r ≠ [] ->
         occurrences a (calls w2) = occurrences a (calls w1)
         /\ (a ∈ l2 -> out2 !! a = Some (Some r)).
Proof.
  intros Hacc1 Hacc2 Hfile Hw.
  destruct (geocode_loop_on_file first l1 w Hacc1 Hfile Hw)
    as (out1 & w1 & Hgeo1 & Hf1 & Hw1 & _ & _ & Hagree).
  destruct (geocode_run second l2 w1 Hacc2 Hf1 Hw1)
    as (w1' & st2 & w2 & _ & _ & _ & _ & _ & Hc1' & _ & _ & _ & Hrun & Hgeo2).
  exists out1, w1, (geocoded_addresses st2), w2.
  split; [done|]. split; [done|].
  intros a r Ha Hout Hr.
  destruct (Hagree a r Ha) as [_ Hstored].
  specialize (Hstored Hout Hr).
  destruct (geocode_loop_cached _ _ _ _ _ _ _ a r Hrun Hstored)
    as (_ & Hcalls & _ & Hfinal).
  split; [by rewrite Hcalls, Hc1'|done].
Qed.

Lemma geocode_again_witness :
  exists out1 w1 out2 w2,
    geocode (PyList ["Oxford"; "offline"]) (fresh_world sample_provider)
      = (Ok out1, w1)
    /\ geocode (PySet ["Oxford"]) w1 = (Ok out2, w2)
    /\ (out1 !! "Oxford" = Some (Some ["Oxford"]) ->
        occurrences "Oxford" (calls w2) = occurrences "Oxford" (calls w1)
        /\ out2 !! "Oxford" = Some (Some ["Oxford"])).
Proof.
  destruct (geocode_again (PyList ["Oxford"; "offline"]) (PySet ["Oxford"])
              ["Oxford"; "offline"] ["Oxford"] (fresh_world sample_provider))
    as (out1 & w1 & out2 & w2 & Hgeo1 & Hgeo2 & Hsame);
    [reflexivity | reflexivity | discriminate | reflexivity |].
  exists out1, w1, out2, w2. split; [exact Hgeo1|]. split; [exact Hgeo2|].
  intros Hout.
  destruct (Hsame "Oxford" ["Oxford"]) as [Hcalls Hout2];
    [apply elem_of_cons; left; reflexivity | exact Hout | discriminate |].
  split; [exact Hcalls|]. apply Hout2. apply elem_of_cons. left. reflexivity.
Defined.

(* ===================================================================== *)
(** ** What is sent to the provider, and when *)
(* ===================================================================== *)

(** The calls of the provider made by the loop are addresses of the batch,
    in the order of the batch; each reading of the clock goes with one
    call, and the readings are appended to the request log in order. *)
Lemma geocode_loop_calls n l i st w st2 w2 :
  geocode_loop n i l st w = (Ok st2, w2) ->
  exists new,
    calls w2 = calls w ++ new
    /\ new `sublist_of` l
    /\ ticks w2 = ticks w + length new
    /\ request_log (cache_obj st2)
       = request_log (cache_obj st)
           ++ map (now w) (seq (ticks w) (length new)).
Proof.
  revert l i st w st2 w2. apply (geocode_loop_ok_ind n
    (fun i l st w st2 w2 =>
       exists new,
         calls w2 = calls w ++ new
         /\ new `sublist_of` l
         /\ ticks w2 = ticks w + length new
         /\ request_log (cache_obj st2)
            = request_log (cache_obj st)
                ++ map (now w) (seq (ticks w) (length new)))).
  - intros i st w. exists []. simpl. rewrite !app_nil_r.
    repeat split; try done; lia.
  - intros i addr rest st w st1 w1 st2 w2 Hstep _ (new & Hc & Hsub & Ht & Hlog).
    pose proof (geocode_step_evolves n i addr st w) as Hev.
    rewrite Hstep in Hev. simpl in Hev.
    rewrite (ev_now _ _ Hev) in Hlog.
    destruct (c_geocoding (cache_obj st) !! addr) as [r|] eqn:Hlook;
      [|destruct (c_requests (cache_obj st) !! "geocoding") as [stamps|] eqn:Hkey].
    + destruct (geocode_step_hit _ _ _ _ _ _ _ _ Hstep Hlook)
        as (Hc1 & _ & Hcalls1 & Ht1 & _).
      exists new. rewrite Hc, Ht, Hlog, Hc1, Hcalls1, Ht1.
      repeat split; try done. by apply sublist_cons.
    + destruct (geocode_step_miss_call _ _ _ _ _ _ _ _ Hstep Hlook Hkey)
        as (Hcalls1 & Ht1 & Hrq & _).
      exists (addr :: new). rewrite Hc, Ht, Hlog, Hcalls1, Ht1.
      split; [by rewrite <- app_assoc|]. split; [by apply sublist_skip|].
      split; [simpl; lia|].
      unfold request_log. rewrite Hrq, Hkey, lookup_insert_eq. simpl.
      by rewrite <- app_assoc.
    + destruct (geocode_step_miss_nolog _ _ _ _ _ _ _ Hstep Hlook Hkey)
        as (Hc1 & _ & Hcalls1 & Ht1).
      exists new. rewrite Hc, Ht, Hlog, Hc1, Hcalls1, Ht1.
      repeat split; try done. by apply sublist_cons.
Qed.

(** X16.  With a readable and writable cache file, the calls that
    [geocode] makes to the provider are addresses of the batch, passed as
    they are and in the order of the batch, each at most as often as it
    occurs in the batch (once at most when the batch has no address
    twice); the clock is read exactly once per call, and the request log
    on file has, after the call, those readings appended in order. *)
Theorem geocode_calls_follow_batch (addresses : py_arg) (l : list string)
    (w : world) :
  accepted addresses = Some l ->
  file w ≠ Corrupt ->
  writable w = true ->
  exists out w' new,
    geocode addresses w = (Ok out, w')
    /\ calls w' = calls w ++ new
    /\ new `sublist_of` l
    /\ (NoDup l -> NoDup new)
    /\ ticks w' = ticks w + length new
    /\ request_log (stored_cache w')
       = request_log (stored_cache w)
           ++ map (now w) (seq (ticks w) (length new)).
Proof.
  intros Hacc Hfile Hw.
  destruct (geocode_run addresses l w Hacc Hfile Hw)
    as (w1 & st2 & w2 & Hload & Hf1 & _ & _ & _ & Hc1 & Hnow1 & Ht1 & _
        & Hrun & Hgeo).
  destruct (geocode_loop_calls _ _ _ _ _ _ _ Hrun)
    as (new & Hc & Hsub & Ht & Hlog).
  assert (in_sync (LoopState (stored_cache w) ∅ false) w1) as Hsync.
  { intros _. simpl. unfold stored_cache. by rewrite Hf1. }
  destruct (geocode_loop_in_sync _ _ _ _ _ _ _ Hrun Hsync) as [_ Hlast].
  assert (cache_obj st2 = stored_cache w2) as Heq.
  { destruct l as [|a0 l'].
    - simpl in Hrun. unfold ret in Hrun. simplify_eq. simpl.
      unfold stored_cache. by rewrite Hf1.
    - apply Hlast; [done|]. apply autosave_due_spec. right. simpl. lia. }
  exists (geocoded_addresses st2), w2, new.
  split; [done|]. split; [congruence|]. split; [done|].
  split; [intros Hnd; by eapply sublist_NoDup|].
  split; [congruence|].
  rewrite <- Heq, Hlog. simpl. by rewrite Hnow1, Ht1.
Qed.

Lemma geocode_calls_follow_batch_witness :
  exists out w' new,
    geocode (PyList ["Oxford"; "221B Baker Street, London"; "offline"])
      baker_world = (Ok out, w')
    /\ calls w' = new
    /\ new `sublist_of` ["Oxford"; "221B Baker Street, London"; "offline"]
    /\ request_log (stored_cache w')
       = [7%Z] ++ map (fun k => Z.of_nat k) (seq 0 (length new)).
Proof.
  destruct (geocode_calls_follow_batch
              (PyList ["Oxford"; "221B Baker Street, London"; "offline"])
              ["Oxford"; "221B Baker Street, London"; "offline"] baker_world)
    as (out & w' & new & Hgeo & Hc & Hsub & _ & _ & Hlog);
    [reflexivity | discriminate | reflexivity |].
  exists out, w', new. repeat split; assumption.
Defined.

(* ===================================================================== *)
(** ** The first batch creates the file *)
(* ===================================================================== *)

(** When the flag is up or the file exists, the file exists after a run
    of the loop that ends with an autosave. *)
Lemma geocode_loop_creates_file n l i st w st2 w2 :
  geocode_loop n i l st w = (Ok st2, w2) ->
  fetched_res_since_last_cachewrite st = true
  \/ (exists c, file w = Pickled c) ->
  l ≠ [] ->
  autosave_due n (i + length l - 1) = true ->
  exists c, file w2 = Pickled c.
Proof.
  revert l i st w st2 w2. apply (geocode_loop_ok_ind n
    (fun i l st w st2 w2 =>
       fetched_res_since_last_cachewrite st = true
       \/ (exists c, file w = Pickled c) ->
       l ≠ [] ->
       autosave_due n (i + length l - 1) = true ->
       exists c, file w2 = Pickled c)); [done|].
  intros i addr rest st w st1 w1 st2 w2 Hstep Hrest IH Hinv _ Hdue.
  pose proof (geocode_step_autosave _ _ _ _ _ _ _ Hstep) as Hsave.
  cbv zeta in Hsave.
  assert (fetched_res_since_last_cachewrite st1 = true
          \/ (exists c, file w1 = Pickled c)) as Hinv1.
  { destruct (autosave_due n i
              && (fetched_res_since_last_cachewrite st
                  || bool_decide (c_geocoding (cache_obj st) !! addr = None)))
      eqn:Hb.
    - right. destruct Hsave as (_ & -> & _). by eexists.
    - destruct Hsave as (_ & Hf & Hfl). destruct Hinv as [Hup | [c Hc]].
      + left. rewrite Hfl, Hup. done.
      + right. exists c. congruence. }
  destruct rest as [|addr' rest'].
  - simpl in Hrest. unfold ret in Hrest. simplify_eq.
    replace (i + length [addr] - 1) with i in Hdue by (simpl; lia).
    rewrite Hdue in Hsave. simpl in Hsave.
    destruct Hinv1 as [Hup | Hex]; [|done].
    destruct (fetched_res_since_last_cachewrite st
              || bool_decide (c_geocoding (cache_obj st) !! addr = None)).
    + destruct Hsave as (_ & -> & _). by eexists.
    + destruct Hsave as (_ & _ & Hfl). congruence.
  - apply IH; [done|done|]. rewrite <- Hdue. f_equal. simpl. lia.
Qed.

(** X17.  With no cache file yet and a writable place for it: [geocode]
    on an empty collection leaves things so, creating no file; on a
    non-empty one it returns with the file created, holding a cache of
    version 1. *)
Theorem geocode_creates_file (addresses : py_arg) (l : list string)
    (w : world) :
  accepted addresses = Some l ->
  file w = Absent ->
  writable w = true ->
  exists out w',
    geocode addresses w = (Ok out, w')
    /\ (l = [] -> file w' = Absent)
    /\ (l ≠ [] -> exists c, file w' = Pickled c /\ c_version c = 1%Z).
Proof.
  intros Hacc Hfile Hw.
  assert (file w ≠ Corrupt) as Hne by congruence.
  destruct (geocode_run addresses l w Hacc Hne Hw)
    as (w1 & st2 & w2 & Hload & Hf1 & Hw1 & _ & _ & _ & _ & _ & _ & Hrun & Hgeo).
  exists (geocoded_addresses st2), w2. split; [done|]. split.
  - intros ->. simpl in Hrun. unfold ret in Hrun. simplify_eq. congruence.
  - intros Hl. destruct l as [|a0 rest]; [done|].
    pose proof Hrun as Hrun'. rewrite geocode_loop_cons in Hrun'.
    destruct (geocode_step (length (a0 :: rest)) 0 a0
                (LoopState (stored_cache w) ∅ false) w1)
      as [[st1|e] wa] eqn:Hstep; [|done].
    assert (c_geocoding (stored_cache w) !! a0 = None) as Hmiss
      by (unfold stored_cache; by rewrite Hfile).
    assert (exists c, file w2 = Pickled c) as [c Hc].
    { destruct (geocode_step_miss _ _ _ _ _ _ _ Hstep Hmiss) as (_ & _ & _ & Hsave).
      destruct rest as [|a1 rest'].
      - simpl in Hrun'. unfold ret in Hrun'. simplify_eq.
        assert (autosave_due 1 0 = true) as Hd by reflexivity.
        simpl length in Hsave. rewrite Hd in Hsave.
        destruct Hsave as (_ & _ & ->). by eexists.
      - apply (geocode_loop_creates_file _ _ _ _ _ _ _ Hrun').
        + destruct (autosave_due _ 0).
          * right. destruct Hsave as (_ & _ & ->). by eexists.
          * left. by destruct Hsave as (-> & _).
        + done.
        + apply autosave_due_spec. right. simpl. lia. }
    exists c. split; [done|].
    pose proof (geocode_loop_extends (length (a0 :: rest)) (a0 :: rest)
                  (stored_cache w) 0 (LoopState (stored_cache w) ∅ false) w1
                  (extends_cache_refl _)) as Hext.
    rewrite Hrun in Hext. simpl in Hext.
    destruct Hext as (Hv & _).
    { unfold stored_cache. rewrite Hf1. apply extends_cache_refl. }
    unfold stored_cache in Hv. rewrite Hc, Hfile in Hv. exact Hv.
Qed.

Lemma geocode_creates_file_witness :
  exists out w' c,
    geocode (PyList ["offline"]) (fresh_world sample_provider) = (Ok out, w')
    /\ file w' = Pickled c /\ c_version c = 1%Z.
Proof.
  destruct (geocode_creates_file (PyList ["offline"]) ["offline"]
              (fresh_world sample_provider))
    as (out & w' & Hgeo & _ & Hfile); [reflexivity | reflexivity | reflexivity |].
  destruct Hfile as (c & Hc & Hv); [discriminate|].
  exists out, w', c. repeat split; assumption.
Defined.

(* ===================================================================== *)
(** ** One address of a batch, seen from the caller of [geocode] *)
(* ===================================================================== *)

(** [geocode] on a batch cut at one of its addresses: when the loop has
    handled the addresses before it, the call goes on with that address
    and the ones after it, and returns the result dict of the loop, with
    the cache in memory on file. *)
Lemma geocode_split (addresses : py_arg) (l1 : list string) (addr : string)
    (l2 : list string) (w : world) (st1 : loop_state) (wm : world) :
  accepted addresses = Some (l1 ++ addr :: l2) ->
  file w ≠ Corrupt ->
  writable w = true ->
  geocode_loop (length (l1 ++ addr :: l2)) 0 l1
    (LoopState (stored_cache w) ∅ false) (_load_cache w).2 = (Ok st1, wm) ->
  writable wm = true
  /\ processed (log wm) = processed (log w) ++ l1
  /\ exists st2 w2,
       geocode_loop (length (l1 ++ addr :: l2)) (length l1) (addr :: l2) st1 wm
         = (Ok st2, w2)
       /\ geocode addresses w = (Ok (geocoded_addresses st2), w2)
       /\ cache_obj st2 = stored_cache w2.
Proof.
  intros Hacc Hfile Hw Hfirst.
  destruct (geocode_run addresses (l1 ++ addr :: l2) w Hacc Hfile Hw)
    as (w1 & st2 & w2 & Hload & Hf1 & Hw1 & _ & _ & _ & _ & _ & _ & Hrun & Hgeo).
  rewrite Hload in Hfirst. simpl in Hfirst.
  assert (processed (log w1) = processed (log w)) as Hlog.
  { revert Hload. py_cases; intros; simplify_eq; simpl;
      unfold processed; rewrite omap_app; simpl; by rewrite app_nil_r. }
  pose proof (geocode_loop_evolves (length (l1 ++ addr :: l2)) l1 0
                (LoopState (stored_cache w) ∅ false) w1) as Hev.
  rewrite Hfirst in Hev. simpl in Hev.
  split; [by rewrite (ev_writable _ _ Hev)|].
  split; [by rewrite (geocode_loop_processed _ _ _ _ _ _ _ Hfirst), Hlog|].
  assert (in_sync (LoopState (stored_cache w) ∅ false) w1) as Hsync.
  { intros _. simpl. unfold stored_cache. by rewrite Hf1. }
  destruct (geocode_loop_in_sync _ _ _ _ _ _ _ Hrun Hsync) as [_ Hlast].
  exists st2, w2. split; [|split; [done|]].
  - rewrite geocode_loop_app, Hfirst in Hrun. exact Hrun.
  - apply Hlast; [by destruct l1|].
    apply autosave_due_spec. right. rewrite length_app. simpl. lia.
Qed.

(** C4.  Take a batch given to [geocode], with a readable and writable
    cache file, and one of its addresses that has an entry in the result
    dict of the cache when its iteration starts, that is when the loop
    has handled the addresses before it.  Its iteration leaves the cache
    as it is, the request log with it, calls the provider for no address
    and does not read the clock; [geocode] makes no call of the provider
    for that address from there on, returns normally, and the dict it
    returns maps the address to the cached entry. *)
Theorem geocode_cache_hit (addresses : py_arg) (l1 : list string)
    (addr : string) (l2 : list string) (w : world)
    (st1 : loop_state) (wm : world) (r : list geocode_match) :
  accepted addresses = Some (l1 ++ addr :: l2) ->
  file w ≠ Corrupt ->
  writable w = true ->
  geocode_loop (length (l1 ++ addr :: l2)) 0 l1
    (LoopState (stored_cache w) ∅ false) (_load_cache w).2 = (Ok st1, wm) ->
  c_geocoding (cache_obj st1) !! addr = Some r ->
  exists sta wa out w',
    geocode_step (length (l1 ++ addr :: l2)) (length l1) addr st1 wm
      = (Ok sta, wa)
    /\ cache_obj sta = cache_obj st1
    /\ calls wa = calls wm /\ ticks wa = ticks wm
    /\ geocode addresses w = (Ok out, w')
    /\ occurrences addr (calls w') = occurrences addr (calls wm)
    /\ out !! addr = Some (Some r).
Proof.
  intros Hacc Hfile Hw Hfirst Hhit.
  destruct (geocode_split _ _ _ _ _ _ _ Hacc Hfile Hw Hfirst)
    as (Hwm & _ & st2 & w2 & Hrest & Hgeo & _).
  destruct (geocode_loop_cache_hit (length (l1 ++ addr :: l2)) (length l1)
              addr l2 st1 wm r Hhit Hwm)
    as (sta & wa & st2' & w2' & Hstep & Hc & Hcalls & Ht & _ & Hrun & Hocc & Hout).
  rewrite Hrest in Hrun. simplify_eq.
  exists sta, wa, (geocoded_addresses st2'), w2'. repeat split; done.
Qed.

Lemma geocode_cache_hit_witness :
  exists out w',
    geocode (PyList ["Oxford"; "offline"; "Oxford"; "221B Baker Street, London"])
      baker_world = (Ok out, w')
    /\ out !! "Oxford" = Some (Some ["Oxford"])
    /\ occurrences "Oxford" (calls w') = 1.
Proof.
  edestruct (geocode_cache_hit
               (PyList ["Oxford"; "offline"; "Oxford"; "221B Baker Street, London"])
               ["Oxford"; "offline"] "Oxford" ["221B Baker Street, London"]
               baker_world)
    as (sta & wa & out & w' & _ & _ & _ & _ & Hgeo & Hocc & Hout);
    [reflexivity | discriminate | reflexivity | reflexivity | reflexivity |].
  exists out, w'. split; [exact Hgeo|]. split; [exact Hout|].
  rewrite Hocc. reflexivity.
Defined.

(** C3.  Take a batch given to [geocode], with a readable and writable
    cache file, and one of its addresses that is not in the cache when
    its iteration starts and for which the provider then raises, whatever
    the exception.  The iteration ends normally with [None] under the
    address in the result dict and the result dict of the cache
    unchanged; [geocode] raises nothing and returns a dict after having
    handled every address of the batch, once and in order: the addresses
    that come after have their entry, and the address has [None] in the
    returned dict unless it comes again later in the batch. *)
Theorem geocode_provider_failure (addresses : py_arg) (l1 : list string)
    (addr : string) (l2 : list string) (w : world)
    (st1 : loop_state) (wm : world) (e : exn) :
  accepted addresses = Some (l1 ++ addr :: l2) ->
  file w ≠ Corrupt ->
  writable w = true ->
  geocode_loop (length (l1 ++ addr :: l2)) 0 l1
    (LoopState (stored_cache w) ∅ false) (_load_cache w).2 = (Ok st1, wm) ->
  c_geocoding (cache_obj st1) !! addr = None ->
  provider wm (calls wm) addr = Raises e ->
  exists sta wa out w',
    geocode_step (length (l1 ++ addr :: l2)) (length l1) addr st1 wm
      = (Ok sta, wa)
    /\ geocoded_addresses sta !! addr = Some None
    /\ c_geocoding (cache_obj sta) = c_geocoding (cache_obj st1)
    /\ geocode addresses w = (Ok out, w')
    /\ processed (log w') = processed (log w) ++ l1 ++ addr :: l2
    /\ (forall a, a ∈ l2 -> is_Some (out !! a))
    /\ (addr ∉ l2 -> out !! addr = Some None).
Proof.
  intros Hacc Hfile Hw Hfirst Hmiss Hraise.
  destruct (geocode_split _ _ _ _ _ _ _ Hacc Hfile Hw Hfirst)
    as (Hwm & Hproc & st2 & w2 & Hrest & Hgeo & _).
  destruct (geocode_loop_provider_failure (length (l1 ++ addr :: l2))
              (length l1) addr l2 st1 wm e Hwm Hmiss Hraise)
    as (sta & wa & st2' & w2' & Hstep & Hnone & Hc & Hrun & _ & Hp & Hall & Hout).
  rewrite Hrest in Hrun. simplify_eq.
  exists sta, wa, (geocoded_addresses st2'), w2'.
  repeat split; try done. by rewrite Hp, Hproc, <- app_assoc.
Qed.

Lemma geocode_provider_failure_witness :
  exists out w',
    geocode (PyList ["Oxford"; "offline"; "nowhere"]) baker_world = (Ok out, w')
    /\ out !! "offline" = Some None
    /\ is_Some (out !! "nowhere")
    /\ processed (log w') = ["Oxford"; "offline"; "nowhere"].
Proof.
  edestruct (geocode_provider_failure
               (PyList ["Oxford"; "offline"; "nowhere"])
               ["Oxford"] "offline" ["nowhere"] baker_world)
    as (sta & wa & out & w' & _ & _ & _ & Hgeo & Hp & Hall & Hout);
    [reflexivity | discriminate | reflexivity | reflexivity | reflexivity
    | reflexivity |].
  exists out, w'. split; [exact Hgeo|]. split; [|split; [|exact Hp]].
  - apply Hout. intros Hin. apply elem_of_cons in Hin as [Heq | Hin];
      [discriminate Heq | apply elem_of_nil in Hin; exact Hin].
  - apply Hall. apply elem_of_cons. left. reflexivity.
Defined.

(** C10.  Take a batch given to [geocode], with a readable and writable
    cache file, and one of its addresses that is not in the cache when
    its iteration starts, the request log being in place.  When the
    provider raises, the result dict gets [None] under the address; when
    it returns the empty list, the result dict gets that empty list; the
    two values differ.  In both cases the cache has no entry for the
    address after the iteration, and, unless the address comes again
    later in the batch, the dict that [geocode] returns has that same
    value ([None], or the empty list) and the cache on file has no entry
    for the address. *)
Theorem geocode_none_or_empty (addresses : py_arg) (l1 : list string)
    (addr : string) (l2 : list string) (w : world)
    (st1 : loop_state) (wm : world) (stamps : list timestamp) :
  accepted addresses = Some (l1 ++ addr :: l2) ->
  file w ≠ Corrupt ->
  writable w = true ->
  geocode_loop (length (l1 ++ addr :: l2)) 0 l1
    (LoopState (stored_cache w) ∅ false) (_load_cache w).2 = (Ok st1, wm) ->
  c_geocoding (cache_obj st1) !! addr = None ->
  c_requests (cache_obj st1) !! "geocoding" = Some stamps ->
  exists sta wa out w',
    geocode_step (length (l1 ++ addr :: l2)) (length l1) addr st1 wm
      = (Ok sta, wa)
    /\ geocode addresses w = (Ok out, w')
    /\ (forall e, provider wm (calls wm) addr = Raises e ->
          geocoded_addresses sta !! addr = Some None
          /\ c_geocoding (cache_obj sta) !! addr = None
          /\ (addr ∉ l2 ->
              out !! addr = Some None
              /\ c_geocoding (stored_cache w') !! addr = None))
    /\ (provider wm (calls wm) addr = Returns [] ->
          geocoded_addresses sta !! addr = Some (Some [])
          /\ c_geocoding (cache_obj sta) !! addr = None
          /\ (addr ∉ l2 ->
              out !! addr = Some (Some [])
              /\ c_geocoding (stored_cache w') !! addr = None))
    /\ (None : pyval) ≠ Some [].
Proof.
  intros Hacc Hfile Hw Hfirst Hmiss Hkey.
  destruct (geocode_split _ _ _ _ _ _ _ Hacc Hfile Hw Hfirst)
    as (Hwm & _ & st2 & w2 & Hrest & Hgeo & Hsync).
  destruct (geocode_loop_none_or_empty (length (l1 ++ addr :: l2))
              (length l1) addr l2 st1 wm stamps Hwm Hmiss Hkey)
    as (sta & wa & st2' & w2' & Hstep & Hrun & Hraise & Hempty & Hdiff).
  rewrite Hrest in Hrun. simplify_eq.
  pose proof Hrest as Hrest2. rewrite geocode_loop_cons, Hstep in Hrest2.
  assert (addr ∉ l2 ->
          c_geocoding (stored_cache w2') !! addr
          = c_geocoding (cache_obj sta) !! addr) as Hfile2.
  { intros Hn. rewrite <- Hsync.
    apply (geocode_loop_cache_other _ _ _ _ _ _ _ _ Hrest2 Hn). }
  exists sta, wa, (geocoded_addresses st2'), w2'.
  split; [done|]. split; [done|]. split; [|split; [|done]].
  - intros e He. destruct (Hraise e He) as (Ho & Hc & Hfinal).
    split; [done|]. split; [done|]. intros Hn.
    split; [by apply Hfinal | by rewrite (Hfile2 Hn)].
  - intros He. destruct (Hempty He) as (Ho & Hc & Hfinal).
    split; [done|]. split; [done|]. intros Hn.
    split; [by apply Hfinal | by rewrite (Hfile2 Hn)].
Qed.

Lemma geocode_none_or_empty_witness :
  exists out w',
    geocode (PyList ["Oxford"; "nowhere"; "offline"]) baker_world = (Ok out, w')
    /\ out !! "nowhere" = Some (Some [])
    /\ c_geocoding (stored_cache w') !! "nowhere" = None.
Proof.
  edestruct (geocode_none_or_empty
               (PyList ["Oxford"; "nowhere"; "offline"])
               ["Oxford"] "nowhere" ["offline"] baker_world)
    as (sta & wa & out & w' & _ & Hgeo & _ & Hempty & _);
    [reflexivity | discriminate | reflexivity | reflexivity | reflexivity
    | reflexivity |].
  destruct (Hempty eq_refl) as (_ & _ & Hfinal).
  destruct Hfinal as [Hout Hfile].
  - intros Hin. apply elem_of_cons in Hin as [Heq | Hin];
      [discriminate Heq | apply elem_of_nil in Hin; exact Hin].
  - exists out, w'. repeat split; assumption.
Defined.

(** C5, as the code has it.  Take a batch given to [geocode], with a
    readable and writable cache file, and one occurrence of an address
    in it.  When the iteration of that occurrence reports a non-empty
    answer (from the cache or from the provider), the provider was
    called for the address at most once in that iteration and is not
    called for it again during the call: each later occurrence is logged
    as a cache hit, and the returned dict maps the address to that
    answer.  When instead the address is not in the cache, the request
    log is in place and the provider raises or returns the empty list,
    the provider was called once, the cache still has no entry for the
    address, and the provider is called for it again when the address
    comes again later in the batch. *)
Theorem geocode_repeated_address (addresses : py_arg) (l1 : list string)
    (addr : string) (l2 : list string) (w : world)
    (st1 : loop_state) (wm : world) :
  accepted addresses = Some (l1 ++ addr :: l2) ->
  file w ≠ Corrupt ->
  writable w = true ->
  geocode_loop (length (l1 ++ addr :: l2)) 0 l1
    (LoopState (stored_cache w) ∅ false) (_load_cache w).2 = (Ok st1, wm) ->
  exists sta wa out w',
    geocode_step (length (l1 ++ addr :: l2)) (length l1) addr st1 wm
      = (Ok sta, wa)
    /\ geocode addresses w = (Ok out, w')
    /\ (forall r,
          geocoded_addresses sta !! addr = Some (Some r) -> r ≠ [] ->
          occurrences addr (calls wa) <= occurrences addr (calls wm) + 1
          /\ occurrences addr (calls w') = occurrences addr (calls wa)
          /\ occurrences addr (cache_hits (log w'))
             = occurrences addr (cache_hits (log wa)) + occurrences addr l2
          /\ out !! addr = Some (Some r))
    /\ (c_geocoding (cache_obj st1) !! addr = None ->
        is_Some (c_requests (cache_obj st1) !! "geocoding") ->
        provider wm (calls wm) addr = Returns []
        \/ (exists e, provider wm (calls wm) addr = Raises e) ->
        c_geocoding (cache_obj sta) !! addr = None
        /\ calls wa = calls wm ++ [addr]
        /\ (addr ∈ l2 ->
            occurrences addr (calls wa) < occurrences addr (calls w'))).
Proof.
  intros Hacc Hfile Hw Hfirst.
  destruct (geocode_split _ _ _ _ _ _ _ Hacc Hfile Hw Hfirst)
    as (Hwm & _ & st2 & w2 & Hrest & Hgeo & _).
  destruct (geocode_step_total (length (l1 ++ addr :: l2)) (length l1)
              addr st1 wm Hwm) as (sta & wa & Hstep).
  pose proof Hrest as Hrest2. rewrite geocode_loop_cons, Hstep in Hrest2.
  exists sta, wa, (geocoded_addresses st2), w2.
  split; [done|]. split; [done|]. split.
  - intros r Hout Hr.
    destruct (geocode_loop_repeated_address _ _ _ l2 _ _ _ _ _ Hwm Hstep Hout Hr)
      as (Hle & st2' & w2' & Hrun & Hcalls & Hhits & Hfinal).
    rewrite Hrest2 in Hrun. simplify_eq. done.
  - intros Hmiss Hkey Hans.
    pose proof (geocode_step_keeps_request_log _ _ _ _ _ _ _ Hstep Hkey) as Hkey1.
    destruct Hkey as [stamps Hkey].
    destruct (geocode_step_miss_call _ _ _ _ _ _ _ _ Hstep Hmiss Hkey)
      as (Hcalls & _ & _ & Hres).
    assert (c_geocoding (cache_obj sta) !! addr = None) as Hnone.
    { destruct Hans as [He | [e He]]; rewrite He in Hres;
        destruct Hres as [_ ->]; done. }
    split; [done|]. split; [done|]. intros Hin.
    by apply (geocode_loop_uncached_called _ _ _ _ _ _ _ addr Hrest2).
Qed.

Lemma geocode_repeated_address_witness :
  exists out w',
    geocode (PyList ["nowhere"; "Oxford"; "nowhere"; "Oxford"])
      (fresh_world sample_provider) = (Ok out, w')
    /\ out !! "Oxford" = Some (Some ["Oxford"])
    /\ occurrences "Oxford" (calls w') = 1.
Proof.
  edestruct (geocode_repeated_address
               (PyList ["nowhere"; "Oxford"; "nowhere"; "Oxford"])
               ["nowhere"] "Oxford" ["nowhere"; "Oxford"]
               (fresh_world sample_provider))
    as (sta & wa & out & w' & Hstep & Hgeo & Hfull & _);
    [reflexivity | discriminate | reflexivity | reflexivity |].
  injection Hstep as Hsta Hwa.
  destruct (Hfull ["Oxford"]) as (_ & Hcalls & _ & Hout);
    [rewrite <- Hsta; reflexivity | discriminate |].
  exists out, w'. split; [exact Hgeo|]. split; [exact Hout|].
  rewrite Hcalls, <- Hwa. reflexivity.
Defined.
